(** * PluginManager: a shallow embedding of [src/plugins/PluginManager.tsx]

    The class keeps a library of plugin definitions (an array of mutable
    objects), a registry of running plugin processes and a parallel map of
    book-keeping records.  Plugin code, the persistence layer, the UI data
    store, the clock and the uuid generator are collaborators of the class;
    they are gathered in the [Host] interface below.

    Execution model.  Every public method is run to completion before the next
    one starts: the suspension points of the [async] methods are not
    interleaved with other calls.  Plugin code reaches the manager only
    through the [register] helper it is handed during [spawn]; whatever else
    it does is a transition of an abstract plugin world [W]. *)

From Stdlib Require Import ZArith List String.
From stdpp Require Import gmap strings list fin_maps.

Local Open Scope string_scope.
Local Open Scope list_scope.
Set Warnings "-register-all".

(** ** Values shared by every layer *)

(** [PluginId] is a branded string in [SerializedPlugin.ts]. *)
Abbreviation PluginId := string.

(** The JavaScript errors the class can meet. *)
Inductive Error : Type :=
  | TypeError      (* property access on [undefined] *)
  | SyntaxError    (* [JSON.parse] or the [AsyncFunction] constructor *)
  | PluginFailure. (* anything plugin code throws or rejects with *)

Inductive Result (A : Type) : Type :=
  | Ok (a : A)
  | Throw (e : Error).
Arguments Ok {A} a.
Arguments Throw {A} e.

(** How a call into plugin code ends. *)
Inductive Outcome : Type := Returns | Raises.

(** The [div] a plugin renders into is an opaque handle. *)
Abbreviation HTMLDivElement := nat.

(** Plugin definitions, as stored in the library and on disk. *)
Record SerializedPlugin : Type := mkPlugin {
  id : PluginId;
  name : string;
  code : string;
  lastEdited : Z;
  enabled : bool;
}.

(** [class ProcessInfo { rendered = false; hasError = false; }] *)
Record ProcessInfo : Type := mkInfo {
  rendered : bool;
  hasError : bool;
}.

Definition new_ProcessInfo : ProcessInfo :=
  {| rendered := false; hasError := false |}.

Definition set_rendered (b : bool) (i : ProcessInfo) : ProcessInfo :=
  {| rendered := b; hasError := hasError i |}.

Definition set_hasError (b : bool) (i : ProcessInfo) : ProcessInfo :=
  {| rendered := rendered i; hasError := b |}.

(** ** [JSON.parse(JSON.stringify(x))]

    The text produced by [JSON.stringify] is kept as a tree.  [toJSON] is what
    [stringify] writes for an object of type [T]; [asT] is the unchecked cast
    [as T] applied to what [parse] read back. *)
Inductive json : Type :=
  | JNull
  | JBool (b : bool)
  | JNumber (z : Z)
  | JString (s : string)
  | JObject (fields : list (string * json)).

Class JSONable (T : Type) : Type := {
  toJSON : T → json;
  asT : json → T;
}.

Fixpoint assoc (k : string) (fields : list (string * json)) : json :=
  match fields with
  | [] => JNull
  | (k', v) :: rest => if String.eqb k k' then v else assoc k rest
  end.

Definition field (k : string) (j : json) : json :=
  match j with JObject fields => assoc k fields | _ => JNull end.

Definition as_bool (j : json) : bool :=
  match j with JBool b => b | _ => false end.
Definition as_number (j : json) : Z :=
  match j with JNumber z => z | _ => 0%Z end.
Definition as_string (j : json) : string :=
  match j with JString s => s | _ => "" end.

#[export] Instance SerializedPlugin_JSONable : JSONable SerializedPlugin := {|
  toJSON p := JObject [("code", JString (code p)); ("name", JString (name p));
                       ("lastEdited", JNumber (lastEdited p));
                       ("enabled", JBool (enabled p)); ("id", JString (id p))];
  asT j := {| id := as_string (field "id" j);
              name := as_string (field "name" j);
              code := as_string (field "code" j);
              lastEdited := as_number (field "lastEdited" j);
              enabled := as_bool (field "enabled" j) |};
|}.

#[export] Instance ProcessInfo_JSONable : JSONable ProcessInfo := {|
  toJSON i := JObject [("rendered", JBool (rendered i));
                       ("hasError", JBool (hasError i))];
  asT j := {| rendered := as_bool (field "rendered" j);
              hasError := as_bool (field "hasError" j) |};
|}.

(** [JSON.stringify(undefined)] is [undefined], not a text. *)
Definition JSON_stringify {T} `{JSONable T} (v : option T) : option json :=
  toJSON <$> v.

(** [JSON.parse(undefined)] parses the text ["undefined"]: a [SyntaxError]. *)
Definition JSON_parse (text : option json) : Result json :=
  match text with
  | Some j => Ok j
  | None => Throw SyntaxError
  end.

(** [private static copy<T>(plugin: T): T]; the argument may be [undefined]. *)
Definition copy {T} `{JSONable T} (plugin : option T) : Result T :=
  match JSON_parse (JSON_stringify plugin) with
  | Ok j => Ok (asT j)
  | Throw e => Throw e
  end.

(** ** Plugin processes and plugin functions *)

Section Process.
Variable W : Type.

(** What a plugin hands to [register]: an object whose [render] and
    [destroy] members may or may not be functions. *)
Record PluginProcess : Type := mkProcess {
  process_render : option (HTMLDivElement → W → Outcome * W);
  process_destroy : option (W → Outcome * W);
}.

(** One run of a compiled plugin function: the instances it passed to
    [register], in order, how the run ended, and the world it left. *)
Definition PluginFn : Type := W → list PluginProcess * Outcome * W.
End Process.
Arguments mkProcess {W} _ _.
Arguments process_render {W} _.
Arguments process_destroy {W} _.

(** ** The collaborators *)

(** Everything the class imports or is constructed with.
    - [makePluginFn] is [new AsyncFunction('df', 'ui', 'plugin', code)]; [None]
      when the constructor rejects the source text.
    - [uuidv4 n] and [Date_getTime n] are the results of the [n]-th call of
      [uuidv4()] and of [new Date().getTime()].
    - [README_PLUGIN] and [ARTIFACT_FINDER_PLUGIN] are the two example
      sources of [./examples]. *)
Class Host : Type := {
  W : Type;
  makePluginFn : string → option (PluginFn W);
  uuidv4 : nat → PluginId;
  Date_getTime : nat → Z;
  README_PLUGIN : string;
  ARTIFACT_FINDER_PLUGIN : string;
}.

(** Object references: [SerializedPlugin] objects live in a heap, the library
    array and the callers hold references to them. *)
Abbreviation Ref := nat.

(** What can be observed of a run from outside the class. *)
Inductive Event : Type :=
  | EvCompile (i : PluginId) (source : string)  (* makePluginFn(plugin.code) *)
  | EvInvoke (i : PluginId) (source : string)   (* pluginFn(df, ui, helpers) *)
  | EvRender (i : PluginId) (element : HTMLDivElement) (* process.render(element) *)
  | EvDestroy (i : PluginId)                    (* process.destroy() *)
  | EvSave (plugins : list SerializedPlugin)    (* gameManager.savePlugins *)
  | EvConsole (msg : string).                   (* console.log / console.error *)

(** ** The state the methods run in *)

Section Manager.
Context `{H : Host}.

(** The five fields of the class come first; [gameManager] and [uiManager]
    are reduced to what the class uses of them (the saved plugin library and
    the [hasAddedDefaultPlugins] UI data item).  The remaining fields are the
    JavaScript run time around the instance.

    [pluginLibrary] holds references: [getPluginFromLibrary] and
    [overwritePlugin] work on the objects themselves.  [ProcessInfo] records
    are kept by value: the class assigns to them only through the map or, in
    [render], through the object it has just read from the map, and hands
    none of them out except through [copy]. *)
Record State : Type := mkState {
  gameManager : list SerializedPlugin;
  uiManager : bool;
  pluginLibrary : list Ref;
  pluginProcesses : gmap PluginId (PluginProcess W);
  pluginProcessInfos : gmap PluginId ProcessInfo;
  heap : Ref → SerializedPlugin;
  heapNext : Ref;
  world : W;
  uuids : nat;
  ticks : nat;
  trace : list Event;
}.

Definition set_gameManager (v : list SerializedPlugin) (st : State) : State :=
  mkState v (uiManager st) (pluginLibrary st) (pluginProcesses st)
    (pluginProcessInfos st) (heap st) (heapNext st) (world st) (uuids st)
    (ticks st) (trace st).
Definition set_uiManager (v : bool) (st : State) : State :=
  mkState (gameManager st) v (pluginLibrary st) (pluginProcesses st)
    (pluginProcessInfos st) (heap st) (heapNext st) (world st) (uuids st)
    (ticks st) (trace st).
Definition set_pluginLibrary (v : list Ref) (st : State) : State :=
  mkState (gameManager st) (uiManager st) v (pluginProcesses st)
    (pluginProcessInfos st) (heap st) (heapNext st) (world st) (uuids st)
    (ticks st) (trace st).
Definition set_pluginProcesses (v : gmap PluginId (PluginProcess W))
    (st : State) : State :=
  mkState (gameManager st) (uiManager st) (pluginLibrary st) v
    (pluginProcessInfos st) (heap st) (heapNext st) (world st) (uuids st)
    (ticks st) (trace st).
Definition set_pluginProcessInfos (v : gmap PluginId ProcessInfo)
    (st : State) : State :=
  mkState (gameManager st) (uiManager st) (pluginLibrary st)
    (pluginProcesses st) v (heap st) (heapNext st) (world st) (uuids st)
    (ticks st) (trace st).
Definition set_heap (v : Ref → SerializedPlugin) (n : Ref) (st : State) : State :=
  mkState (gameManager st) (uiManager st) (pluginLibrary st)
    (pluginProcesses st) (pluginProcessInfos st) v n (world st) (uuids st)
    (ticks st) (trace st).
Definition set_world (v : W) (st : State) : State :=
  mkState (gameManager st) (uiManager st) (pluginLibrary st)
    (pluginProcesses st) (pluginProcessInfos st) (heap st) (heapNext st) v
    (uuids st) (ticks st) (trace st).
Definition set_uuids (v : nat) (st : State) : State :=
  mkState (gameManager st) (uiManager st) (pluginLibrary st)
    (pluginProcesses st) (pluginProcessInfos st) (heap st) (heapNext st)
    (world st) v (ticks st) (trace st).
Definition set_ticks (v : nat) (st : State) : State :=
  mkState (gameManager st) (uiManager st) (pluginLibrary st)
    (pluginProcesses st) (pluginProcessInfos st) (heap st) (heapNext st)
    (world st) (uuids st) v (trace st).
Definition emit (e : Event) (st : State) : State :=
  mkState (gameManager st) (uiManager st) (pluginLibrary st)
    (pluginProcesses st) (pluginProcessInfos st) (heap st) (heapNext st)
    (world st) (uuids st) (ticks st) (trace st ++ [e]).

(** Heap cells that were never allocated hold this object. *)
Definition blank : SerializedPlugin :=
  {| id := ""; name := ""; code := ""; lastEdited := 0; enabled := false |}.

(** [new PluginManager(gameManager, uiManager)], in world [w]. *)
Definition new_PluginManager (saved : list SerializedPlugin) (flag : bool)
    (w : W) : State :=
  {| gameManager := saved; uiManager := flag;
     pluginLibrary := []; pluginProcesses := ∅; pluginProcessInfos := ∅;
     heap := λ _, blank; heapNext := 0; world := w;
     uuids := 0; ticks := 0; trace := [] |}.

(** ** Computations that may throw *)

Definition M (A : Type) : Type := State → Result A * State.

Definition ret {A} (a : A) : M A := λ st, (Ok a, st).
Definition throw {A} (e : Error) : M A := λ st, (Throw e, st).
Definition bind {A B} (m : M A) (k : A → M B) : M B :=
  λ st, match m st with
        | (Ok a, st') => k a st'
        | (Throw e, st') => (Throw e, st')
        end.
Definition gets {A} (f : State → A) : M A := λ st, (Ok (f st), st).
Definition modify (f : State → State) : M unit := λ st, (Ok tt, f st).

(** [try { body } catch (e) { handler }] *)
Definition try_catch {A} (body : M A) (handler : Error → M A) : M A :=
  λ st, match body st with
        | (Ok a, st') => (Ok a, st')
        | (Throw e, st') => handler e st'
        end.

(** [try { body } finally { fin }]: [fin] runs either way, and an error it
    throws replaces the completion of [body]. *)
Definition try_finally {A} (body : M A) (fin : M unit) : M A :=
  λ st, match body st with
        | (r, st') =>
            match fin st' with
            | (Ok _, st'') => (r, st'')
            | (Throw e, st'') => (Throw e, st'')
            end
        end.

(** The [x ← m; k] and [m;; k] notations sequence statements; a [Throw]
    skips what follows. *)
#[export] Instance M_ret : MRet M := @ret.
#[export] Instance M_bind : MBind M := λ A B k m, bind m k.
End Manager.

(** ** The run time and the collaborators *)

Section Runtime.
Context `{H : Host}.

Definition lift {A} (r : Result A) : M A := λ st, (r, st).

(** A fresh object holding [v]. *)
Definition alloc (v : SerializedPlugin) : M Ref :=
  λ st, (Ok (heapNext st),
         set_heap (λ r, if Nat.eqb r (heapNext st) then v else heap st r)
                  (S (heapNext st)) st).

Fixpoint alloc_all (vs : list SerializedPlugin) : M (list Ref) :=
  match vs with
  | [] => mret []
  | v :: rest => r ← alloc v; rs ← alloc_all rest; mret (r :: rs)
  end.

(** An assignment to fields of the object behind [r]; whoever holds [r] can
    do this, the class and its callers alike. *)
Definition write (r : Ref) (f : SerializedPlugin → SerializedPlugin) : M unit :=
  modify (λ st, set_heap (λ r', if Nat.eqb r' r then f (heap st r') else heap st r')
                         (heapNext st) st).

(** The contents of an array of plugin objects. *)
Definition contents (st : State) (refs : list Ref) : list SerializedPlugin :=
  map (heap st) refs.

(** [new Date().getTime()] *)
Definition new_Date_getTime : M Z :=
  λ st, (Ok (Date_getTime (ticks st)), set_ticks (S (ticks st)) st).

(** [uuidv4()] *)
Definition call_uuidv4 : M PluginId :=
  λ st, (Ok (uuidv4 (uuids st)), set_uuids (S (uuids st)) st).

Definition console_log (msg : string) : M unit := modify (emit (EvConsole msg)).

(** Modelled from the spec: [gameManager.savePlugins] and
    [gameManager.loadPlugins] (AbstractGameManager is not part of the
    sources).  Section 6 gives them as [savePlugins(sequence of Definition)]
    and [loadPlugins() -> sequence of Definition] with "last write wins":
    a save replaces what is stored by the current contents of the array it is
    given, a load returns what was stored last, as fresh objects. *)
Definition savePlugins (plugins : list Ref) : M unit :=
  modify (λ st, emit (EvSave (contents st plugins))
                     (set_gameManager (contents st plugins) st)).

(** Modelled from the spec: [gameManager.loadPlugins], the other half of
    [savePlugins] above. *)
Definition loadPlugins : M (list Ref) :=
  saved ← gets gameManager; alloc_all saved.

(** Modelled from the spec: [uiManager.getUIDataItem] and
    [uiManager.setUIDataItem] at the key [UIDataKey.hasAddedDefaultPlugins]
    (AbstractUIManager is not part of the sources): a stored flag, falsy
    until it is set. *)
Definition getUIDataItem_hasAddedDefaultPlugins : M bool := gets uiManager.

(** Modelled from the spec: [uiManager.setUIDataItem] at the same key. *)
Definition setUIDataItem_hasAddedDefaultPlugins (v : bool) : M unit :=
  modify (set_uiManager v).

(** A synchronous or awaited call into plugin code. *)
Definition call (f : W → Outcome * W) : M unit :=
  λ st, match f (world st) with
        | (Returns, w') => (Ok tt, set_world w' st)
        | (Raises, w') => (Throw PluginFailure, set_world w' st)
        end.
End Runtime.

(** ** The methods of [PluginManager] *)

Section Methods.
Context `{H : Host}.

(** [copy] of a plugin object yields a new object. *)
Definition copy_object (r : Ref) : M Ref :=
  v ← gets (λ st, heap st r);
  c ← lift (copy (Some v));
  alloc c.

Fixpoint copy_objects (refs : list Ref) : M (list Ref) :=
  match refs with
  | [] => mret []
  | r :: rest => c ← copy_object r; cs ← copy_objects rest; mret (c :: cs)
  end.

(** [this.pluginProcessInfos[id].hasError = true]: a [TypeError] when there
    is no record to assign to. *)
Definition pluginProcessInfos_hasError_true (i : PluginId) : M unit :=
  info ← gets (λ st, pluginProcessInfos st !! i);
  match info with
  | Some info =>
      modify (λ st, set_pluginProcessInfos
                      (<[i := set_hasError true info]> (pluginProcessInfos st)) st)
  | None => throw TypeError
  end.

(** The body of [try] and the [catch] clause of [destroy]. *)
Definition destroy_try (i : PluginId) : M unit :=
  try_catch
    (process ← gets (λ st, pluginProcesses st !! i);
     match process with
     | Some p =>
         match process_destroy p with
         | Some d => modify (emit (EvDestroy i));; call d
         | None => mret tt
         end
     | None => mret tt
     end)
    (λ e, pluginProcessInfos_hasError_true i;;
          console_log "error when destroying plugin").

(** The [finally] clause of [destroy]. *)
Definition destroy_finally (i : PluginId) : M unit :=
  modify (λ st, set_pluginProcesses (delete i (pluginProcesses st)) st);;
  modify (λ st, set_pluginProcessInfos (delete i (pluginProcessInfos st)) st).

(** [public destroy(id: PluginId): void] *)
Definition destroy (i : PluginId) : M unit :=
  running ← gets (λ st, pluginProcesses st !! i);
  match running with
  | Some _ => try_finally (destroy_try i) (destroy_finally i)
  | None => mret tt
  end.

(** [public addPluginToLibrary(name: string, code: string): SerializedPlugin] *)
Definition addPluginToLibrary (name code : string) : M Ref :=
  now ← new_Date_getTime;
  uuid ← call_uuidv4;
  newPlugin ← alloc {| code := code; name := name; lastEdited := now;
                       enabled := true; id := uuid |};
  modify (λ st, set_pluginLibrary (pluginLibrary st ++ [newPlugin]) st);;
  library ← gets pluginLibrary;
  savePlugins library;;
  copy_object newPlugin.

(** [public async load(): Promise<void>] *)
Definition load : M unit :=
  flag ← getUIDataItem_hasAddedDefaultPlugins;
  (if negb flag then
     setUIDataItem_hasAddedDefaultPlugins true;;
     addPluginToLibrary "README" README_PLUGIN;;
     addPluginToLibrary "Artifacts Finder" ARTIFACT_FINDER_PLUGIN;;
     mret tt
   else mret tt);;
  loaded ← loadPlugins;
  modify (set_pluginLibrary loaded).

(** [public async deletePlugin(pluginId: PluginId): Promise<void>] *)
Definition deletePlugin (pluginId : PluginId) : M unit :=
  modify (λ st, set_pluginLibrary
                  (List.filter (λ p, negb (String.eqb (id (heap st p)) pluginId))
                               (pluginLibrary st)) st);;
  destroy pluginId;;
  library ← gets pluginLibrary;
  savePlugins library.

(** [public getPluginFromLibrary(id?: PluginId): SerializedPlugin | undefined]:
    the object found in the array itself. *)
Definition getPluginFromLibrary (i : option PluginId) : M (option Ref) :=
  gets (λ st, match i with
              | Some i => List.find (λ p, String.eqb (id (heap st p)) i)
                                    (pluginLibrary st)
              | None => None
              end).

(** [public overwritePlugin(newName, pluginCode, id): void] *)
Definition overwritePlugin (newName pluginCode : string) (i : PluginId) : M unit :=
  destroy i;;
  plugin ← getPluginFromLibrary (Some i);
  match plugin with
  | Some plugin =>
      write plugin (λ p, mkPlugin (id p) (name p) pluginCode (lastEdited p) (enabled p));;
      write plugin (λ p, mkPlugin (id p) newName (code p) (lastEdited p) (enabled p));;
      now ← new_Date_getTime;
      write plugin (λ p, mkPlugin (id p) (name p) (code p) now (enabled p));;
      library ← gets pluginLibrary;
      savePlugins library
  | None => mret tt
  end.

(** The [register] closure [spawn] builds for [id]. *)
Definition register (i : PluginId) (plugin : PluginProcess W) : M unit :=
  slot ← gets (λ st, pluginProcesses st !! i);
  match slot with
  | None => modify (λ st, set_pluginProcesses (<[i := plugin]> (pluginProcesses st)) st)
  | Some _ => mret tt
  end.

Fixpoint register_each (i : PluginId) (plugins : list (PluginProcess W)) : M unit :=
  match plugins with
  | [] => mret tt
  | p :: rest => register i p;; register_each i rest
  end.

(** [await pluginFn(this.gameManager, this.uiManager, pluginHelpers)]: the
    run calls [register] as often as it likes, then returns or raises. *)
Definition invoke (i : PluginId) (pluginFn : PluginFn W) : M unit :=
  run ← gets (λ st, pluginFn (world st));
  register_each i run.1.1;;
  call (λ _, (run.1.2, run.2)).

(** [public async spawn(id: PluginId): Promise<PluginProcess | undefined>] *)
Definition spawn (i : PluginId) : M (option (PluginProcess W)) :=
  running ← gets (λ st, pluginProcesses st !! i);
  match running with
  | Some process => mret (Some process)
  | None =>
      plugin ← getPluginFromLibrary (Some i);
      match plugin with
      | None => mret None
      | Some plugin =>
          modify (λ st, set_pluginProcessInfos
                          (<[id (heap st plugin) := new_ProcessInfo]>
                             (pluginProcessInfos st)) st);;
          try_catch
            (source ← gets (λ st, code (heap st plugin));
             modify (emit (EvCompile i source));;
             match makePluginFn source with
             | Some pluginFn => modify (emit (EvInvoke i source));; invoke i pluginFn
             | None => throw SyntaxError
             end)
            (λ e, console_log "failed to start plugin";;
                  pluginProcessInfos_hasError_true i);;
          gets (λ st, pluginProcesses st !! id (heap st plugin))
      end
  end.

(** [public async render(id: PluginId, element: HTMLDivElement): Promise<void>].
    [processInfo] is the record object itself, so the two assignments
    below update the record stored at [id]. *)
Definition render (i : PluginId) (element : HTMLDivElement) : M unit :=
  process ← spawn i;
  processInfo ← gets (λ st, pluginProcessInfos st !! i);
  match process, processInfo with
  | Some process, Some processInfo =>
      match process_render process with
      | Some process_render =>
          if negb (rendered processInfo) then
            try_catch
              (modify (emit (EvRender i element));;
               call (process_render element);;
               modify (λ st, set_pluginProcessInfos
                               (alter (set_rendered true) i (pluginProcessInfos st)) st))
              (λ e, modify (λ st, set_pluginProcessInfos
                                    (alter (set_hasError true) i (pluginProcessInfos st)) st);;
                    console_log "failed to render plugin")
          else mret tt
      | None => mret tt
      end
  | _, _ => mret tt
  end.

(** [public getLibrary(): SerializedPlugin[]] *)
Definition getLibrary : M (list Ref) :=
  library ← gets pluginLibrary;
  copy_objects library.


Fixpoint collect (ids : list PluginId) (map : gmap PluginId ProcessInfo)
    : M (gmap PluginId ProcessInfo) :=
  match ids with
  | [] => mret map
  | i :: rest =>
      info ← gets (λ st, pluginProcessInfos st !! i);
      c ← lift (copy info);
      collect rest (<[i := c]> map)
  end.

(** [public getAllProcessInfos(): Map<PluginId, ProcessInfo>]; the order of
    the keys of the [Map] is not kept. *)
Definition getAllProcessInfos : M (gmap PluginId ProcessInfo) :=
  infos ← gets pluginProcessInfos;
  collect (map_to_list infos).*1 ∅.
End Methods.

(** ** Sequences of calls *)

Section Calls.
Context `{H : Host}.

(** The seven state-changing public methods, with their arguments. *)
Inductive Op : Type :=
  | Load
  | AddPluginToLibrary (name code : string)
  | OverwritePlugin (newName pluginCode : string) (i : PluginId)
  | DeletePlugin (i : PluginId)
  | Spawn (i : PluginId)
  | Render (i : PluginId) (element : HTMLDivElement)
  | Destroy (i : PluginId).

Definition perform (op : Op) : M unit :=
  match op with
  | Load => load
  | AddPluginToLibrary name code => addPluginToLibrary name code;; mret tt
  | OverwritePlugin newName pluginCode i => overwritePlugin newName pluginCode i
  | DeletePlugin i => deletePlugin i
  | Spawn i => spawn i;; mret tt
  | Render i element => render i element
  | Destroy i => destroy i
  end.

(** The state a sequence of calls leaves, whether or not a call threw. *)
Definition after (ops : list Op) (st : State) : State :=
  foldl (λ s op, (perform op s).2) st ops.

(** States of a manager that was constructed and then only called through
    its public methods. *)
Definition reachable (st : State) : Prop :=
  ∃ saved flag w ops, st = after ops (new_PluginManager saved flag w).

(** The registry never holds a process without a book-keeping record. *)
Definition registry_has_info (st : State) : Prop :=
  ∀ i, is_Some (pluginProcesses st !! i) → is_Some (pluginProcessInfos st !! i).


(** Every reference of the library array was allocated. *)
Definition library_allocated (st : State) : Prop :=
  Forall (λ r, r < heapNext st) (pluginLibrary st).

(** The calls of the [render] member of the process of [i] in a trace. *)
Definition renders_of (i : PluginId) (t : list Event) : list Event :=
  List.filter (λ e, match e with EvRender j _ => String.eqb j i | _ => false end) t.

(** The compilations and invocations of plugin source in a trace. *)
Definition runs_of (t : list Event) : list Event :=
  List.filter (λ e, match e with EvCompile _ _ | EvInvoke _ _ => true | _ => false end) t.

(** The invocations of plugin source in a trace. *)
Definition invokes_of (t : list Event) : list Event :=
  List.filter (λ e, match e with EvInvoke _ _ => true | _ => false end) t.

(** The library, its objects, what is saved and the counters are the same. *)
Definition same_store (st st' : State) : Prop :=
  gameManager st' = gameManager st ∧ uiManager st' = uiManager st ∧
  pluginLibrary st' = pluginLibrary st ∧ heap st' = heap st ∧
  heapNext st' = heapNext st ∧ uuids st' = uuids st ∧ ticks st' = ticks st.

(** The registry and the book-keeping are the same at every id but [i]. *)
Definition same_elsewhere (i : PluginId) (st st' : State) : Prop :=
  ∀ j, j ≠ i →
    pluginProcesses st' !! j = pluginProcesses st !! j ∧
    pluginProcessInfos st' !! j = pluginProcessInfos st !! j.

(** The registry and the book-keeping are the same everywhere. *)
Definition same_processes (st st' : State) : Prop :=
  pluginProcesses st' = pluginProcesses st ∧
  pluginProcessInfos st' = pluginProcessInfos st.

(** What a caller reads in the objects [getLibrary] returns. *)
Definition getLibrary_contents (st : State) : Result (list SerializedPlugin) :=
  match getLibrary st with
  | (Ok refs, st') => Ok (contents st' refs)
  | (Throw e, _) => Throw e
  end.

(** A call that tears the process of [i] down. *)
Definition tears_down (i : PluginId) (op : Op) : bool :=
  match op with
  | Destroy j | DeletePlugin j | OverwritePlugin _ _ j => String.eqb j i
  | _ => false
  end.
End Calls.

(** ** Shapes used in the statements *)

Section Shapes.
Context `{H : Host}.

(** The state after [register] was called with each of [ps]: the first call
    fills an empty slot, every other call is ignored. *)
Definition registered (i : PluginId) (ps : list (PluginProcess W)) (st : State) : State :=
  match pluginProcesses st !! i, ps with
  | None, p :: _ => set_pluginProcesses (<[i := p]> (pluginProcesses st)) st
  | _, _ => st
  end.

(** The state a failed start leaves: the diagnostic, then [hasError]. *)
Definition start_failed (i : PluginId) (st : State) : State :=
  set_pluginProcessInfos
    (<[i := set_hasError true new_ProcessInfo]> (pluginProcessInfos st))
    (emit (EvConsole "failed to start plugin") st).

(** The object literal [addPluginToLibrary] builds in state [st]. *)
Definition newPlugin (name code : string) (st : State) : SerializedPlugin :=
  {| code := code; name := name; lastEdited := Date_getTime (ticks st);
     enabled := true; id := uuidv4 (uuids st) |}.

(** Everything but the heap is the same. *)
Definition same_but_heap (st st' : State) : Prop :=
  gameManager st' = gameManager st ∧ uiManager st' = uiManager st ∧
  pluginLibrary st' = pluginLibrary st ∧ same_processes st st' ∧
  world st' = world st ∧ uuids st' = uuids st ∧ ticks st' = ticks st ∧
  trace st' = trace st.

(** The two example definitions a first [load] adds in state [st]. *)
Definition defaultPlugins (st : State) : list SerializedPlugin :=
  [ {| code := README_PLUGIN; name := "README";
       lastEdited := Date_getTime (ticks st); enabled := true;
       id := uuidv4 (uuids st) |};
    {| code := ARTIFACT_FINDER_PLUGIN; name := "Artifacts Finder";
       lastEdited := Date_getTime (S (ticks st)); enabled := true;
       id := uuidv4 (S (uuids st)) |} ].

(** The process of [i] is registered and its [render] has returned. *)
Definition rendered_live (i : PluginId) (st : State) : Prop :=
  is_Some (pluginProcesses st !! i) ∧
  ∃ info, pluginProcessInfos st !! i = Some info ∧ rendered info = true.
End Shapes.

(** ** Shapes used in the further properties *)

Section MoreShapes.
Context `{H : Host}.

(** How a start of the definition behind [r] ends: [true] when the source
    is rejected or its run raises. *)
Definition start_fails (r : Ref) (st : State) : bool :=
  match makePluginFn (code (heap st r)) with
  | None => true
  | Some pluginFn =>
      match (pluginFn (world st)).1.2 with Raises => true | Returns => false end
  end.

(** The instances a start of the definition behind [r] hands to [register]. *)
Definition start_registers (r : Ref) (st : State) : list (PluginProcess W) :=
  match makePluginFn (code (heap st r)) with
  | None => []
  | Some pluginFn => (pluginFn (world st)).1.1
  end.


(** A record with [rendered = true] belongs to a registered process. *)
Definition rendered_has_process (st : State) : Prop :=
  ∀ i info, pluginProcessInfos st !! i = Some info → rendered info = true →
            is_Some (pluginProcesses st !! i).

(** The ids of a list of definitions. *)
Definition ids_of (l : list SerializedPlugin) : list PluginId := map id l.

(** [ids] are pairwise different results of the first [u] calls of
    [uuidv4]. *)
Definition issued (u : nat) (ids : list PluginId) : Prop :=
  List.NoDup ids ∧ ∀ x, In x ids → ∃ k, k < u ∧ x = uuidv4 k.

(** Both the library and what is saved hold issued ids only. *)
Definition ids_issued (st : State) : Prop :=
  issued (uuids st) (ids_of (contents st (pluginLibrary st))) ∧
  issued (uuids st) (ids_of (gameManager st)).
End MoreShapes.

(** Everything in a trace that is a call into plugin code or a compilation
    of plugin source: what is left are saves and console lines. *)
Definition plugin_calls (t : list Event) : list Event :=
  List.filter (λ e, match e with
                    | EvCompile _ _ | EvInvoke _ _ | EvRender _ _ | EvDestroy _ => true
                    | EvSave _ | EvConsole _ => false
                    end) t.

(** ** A concrete host, for running the model *)

Module Demo.
(** The plugin world counts the calls into plugin code. *)
Definition tick (o : Outcome) : nat → Outcome * nat := λ w, (o, S w).

(** No [render], no [destroy]. *)
Definition bare : PluginProcess nat := mkProcess None None.
(** [render] and [destroy] both return. *)
Definition widget : PluginProcess nat :=
  mkProcess (Some (λ _, tick Returns)) (Some (tick Returns)).
(** [render] and [destroy] both throw. *)
Definition broken : PluginProcess nat :=
  mkProcess (Some (λ _, tick Raises)) (Some (tick Raises)).
(** [render] throws on its first call only: it returns once the world is
    past 1 (the run of the source is call 0, the first render call 1). *)
Definition flaky : PluginProcess nat :=
  mkProcess (Some (λ _ w, (if Nat.leb 2 w then Returns else Raises, S w))) None.

(** What each source text does when run; any other text compiles, registers
    nothing and returns. *)
Definition compile (source : string) : option (PluginFn nat) :=
  if String.eqb source "plugin.register(widget)" then
    Some (λ w, ([widget; bare], Returns, S w))
  else if String.eqb source "plugin.register(broken); throw 1" then
    Some (λ w, ([broken; widget], Raises, S w))
  else if String.eqb source "plugin.register(flaky)" then
    Some (λ w, ([flaky], Returns, S w))
  else if String.eqb source "throw 1" then
    Some (λ w, ([], Raises, S w))
  else if String.eqb source "}" then None
  else Some (λ w, ([], Returns, S w)).

(** ["a"], ["b"], ["c"], ... *)
Definition uuid (n : nat) : PluginId :=
  String (Ascii.ascii_of_nat (97 + n)) EmptyString.

Definition host : Host := {|
  W := nat;
  makePluginFn := compile;
  uuidv4 := uuid;
  Date_getTime n := (1600000000000 + Z.of_nat n)%Z;
  README_PLUGIN := "// readme";
  ARTIFACT_FINDER_PLUGIN := "// artifacts finder";
|}.

#[local] Existing Instance host.

(** A manager that was just constructed: nothing saved, flag unset. *)
Definition fresh : State := new_PluginManager [] false 0.

(** One definition in the library, never started. *)
Definition defined : State :=
  after [AddPluginToLibrary "X" "// x"] fresh.

(** The source registers [widget] and returns; not started yet. *)
Definition defined_widget : State :=
  after [AddPluginToLibrary "X" "plugin.register(widget)"] fresh.

(** The same, started: the process is running. *)
Definition running : State :=
  after [AddPluginToLibrary "X" "plugin.register(widget)"; Spawn "a"] fresh.

(** The source registers [flaky] and returns; nothing was rendered yet. *)
Definition unrendered : State :=
  after [AddPluginToLibrary "X" "plugin.register(flaky)"; Spawn "a"] fresh.

(** The source registers [broken], then throws; not started yet. *)
Definition unstarted : State :=
  after [AddPluginToLibrary "X" "plugin.register(broken); throw 1"] fresh.


(** The source throws before it registers anything, and was started. *)
Definition failed : State :=
  after [AddPluginToLibrary "X" "throw 1"; Spawn "a"] fresh.
End Demo.

(** A host like [Demo.host] whose [uuidv4] returns ["", "u", "uu", ...]. *)
Definition unary (n : nat) : PluginId := Nat.iter n (String (Ascii.ascii_of_nat 117)) "".

Definition unary_host : Host := {|
  W := nat;
  makePluginFn := Demo.compile;
  uuidv4 := unary;
  Date_getTime n := Z.of_nat n;
  README_PLUGIN := "// readme";
  ARTIFACT_FINDER_PLUGIN := "// artifacts finder";
|}.

(** * Properties *)

(** ** Copies, lookups in the library, registration *)

Ltac unfold_M :=
  unfold mbind, mret, M_bind, M_ret in *;
  unfold bind, ret, throw, gets, modify, try_catch, try_finally, lift in *.

Lemma copy_plugin (p : SerializedPlugin) : copy (Some p) = Ok p.
Proof. by destruct p. Qed.

Lemma copy_info (info : ProcessInfo) : copy (Some info) = Ok info.
Proof. by destruct info. Qed.


Lemma renders_of_app i t t' : renders_of i (t ++ t') = renders_of i t ++ renders_of i t'.
Proof. apply List.filter_app. Qed.

Section Basics.
Context `{H : Host}.

Lemma getPluginFromLibrary_eq (i : PluginId) st :
  getPluginFromLibrary (Some i) st =
    (Ok (List.find (λ p, String.eqb (id (heap st p)) i) (pluginLibrary st)), st).
Proof. reflexivity. Qed.

(** What [find] returns is an element of the array, and it has the id. *)
Lemma getPluginFromLibrary_found (i : PluginId) st r :
  (getPluginFromLibrary (Some i) st).1 = Ok (Some r) →
  In r (pluginLibrary st) ∧ id (heap st r) = i.
Proof.
  rewrite getPluginFromLibrary_eq. simpl. intros [= Hf].
  apply List.find_some in Hf as [Hin Heq]. split; [done|].
  by apply String.eqb_eq.
Qed.



Lemma register_eq i p st :
  register i p st =
    (Ok tt, match pluginProcesses st !! i with
            | None => set_pluginProcesses (<[i := p]> (pluginProcesses st)) st
            | Some _ => st
            end).
Proof. unfold register. unfold_M. by destruct (pluginProcesses st !! i). Qed.

Lemma register_each_taken i ps st :
  is_Some (pluginProcesses st !! i) → register_each i ps st = (Ok tt, st).
Proof.
  intros [q Hq]. induction ps as [|p ps IH]; [done|].
  simpl. unfold_M. rewrite register_eq, Hq. apply IH.
Qed.

Lemma register_each_eq i ps st :
  register_each i ps st = (Ok tt, registered i ps st).
Proof.
  unfold registered. destruct (pluginProcesses st !! i) as [q|] eqn:Hq.
  { apply register_each_taken. by rewrite Hq. }
  destruct ps as [|p ps]; [done|].
  simpl. unfold_M. rewrite register_eq, Hq.
  apply register_each_taken. simpl. rewrite lookup_insert_eq. by eexists.
Qed.
End Basics.

(** ** What [destroy] and [spawn] do to the state *)

Section Processes.
Context `{H : Host}.

Lemma destroy_not_running i st :
  pluginProcesses st !! i = None → destroy i st = (Ok tt, st).
Proof. intros Hn. unfold destroy. unfold_M. by rewrite Hn. Qed.

Lemma destroy_effect i st :
  let st' := (destroy i st).2 in
  same_store st st' ∧
  pluginProcesses st' = delete i (pluginProcesses st) ∧
  pluginProcessInfos st' =
    match pluginProcesses st !! i with
    | Some _ => delete i (pluginProcessInfos st)
    | None => pluginProcessInfos st
    end ∧
  (∀ k, renders_of k (trace st') = renders_of k (trace st)) ∧
  (registry_has_info st → (destroy i st).1 = Ok tt).
Proof.
  unfold destroy, destroy_try, destroy_finally, pluginProcessInfos_hasError_true,
    console_log, call, same_store. unfold_M. simpl.
  destruct (pluginProcesses st !! i) as [p|] eqn:Hp; simpl.
  2:{ repeat split; auto. by rewrite delete_id. }
  rewrite Hp. simpl.
  destruct (process_destroy p) as [d|]; simpl; [|by repeat split].
  destruct (d (world st)) as [[] w']; simpl.
  { repeat split; auto. intros k. rewrite renders_of_app. simpl. by rewrite app_nil_r. }
  destruct (pluginProcessInfos st !! i) as [info|] eqn:Hi; simpl.
  - repeat split; auto.
    + by rewrite delete_insert_eq.
    + intros k. rewrite !renders_of_app. simpl. by rewrite !app_nil_r.
  - repeat split; auto.
    + intros k. rewrite !renders_of_app. simpl. by rewrite !app_nil_r.
    + intros Hinv. destruct (Hinv i) as [x Hx]; [by rewrite Hp|congruence].
Qed.



Lemma spawn_running i st p :
  pluginProcesses st !! i = Some p → spawn i st = (Ok (Some p), st).
Proof. intros Hp. unfold spawn. unfold_M. by rewrite Hp. Qed.

Lemma spawn_unknown i st :
  pluginProcesses st !! i = None →
  (getPluginFromLibrary (Some i) st).1 = Ok None →
  spawn i st = (Ok None, st).
Proof.
  intros Hp Hf. unfold spawn. unfold_M. rewrite Hp.
  rewrite getPluginFromLibrary_eq in *. simpl in Hf. injection Hf as ->. done.
Qed.

(** [spawn] of a plugin of the library that is not running, in one piece. *)
Lemma spawn_starts i st r :
  pluginProcesses st !! i = None →
  (getPluginFromLibrary (Some i) st).1 = Ok (Some r) →
  spawn i st =
    let source := code (heap st r) in
    let st1 := emit (EvCompile i source)
                 (set_pluginProcessInfos
                    (<[i := new_ProcessInfo]> (pluginProcessInfos st)) st) in
    match makePluginFn source with
    | None => (Ok None, start_failed i st1)
    | Some pluginFn =>
        let run := pluginFn (world st) in
        let st2 := set_world run.2
                     (registered i run.1.1 (emit (EvInvoke i source) st1)) in
        match run.1.2 with
        | Returns => (Ok (pluginProcesses st2 !! i), st2)
        | Raises => (Ok (pluginProcesses st2 !! i), start_failed i st2)
        end
    end.
Proof.
  intros Hp Hf. destruct (getPluginFromLibrary_found _ _ _ Hf) as [_ Hid].
  rewrite getPluginFromLibrary_eq in Hf. simpl in Hf. injection Hf as Hf.
  unfold spawn, invoke, console_log, pluginProcessInfos_hasError_true, call.
  unfold_M. rewrite Hp, getPluginFromLibrary_eq, Hf. simpl. rewrite Hid.
  destruct (makePluginFn (code (heap st r))) as [fn|]; simpl.
  2:{ rewrite lookup_insert_eq. simpl. by rewrite Hid, Hp. }
  rewrite register_each_eq.
  destruct (fn (world st)) as [[regs []] w']; simpl.
  - unfold registered; simpl. rewrite Hp. destruct regs; simpl; by rewrite Hid.
  - unfold registered; simpl. rewrite Hp.
    destruct regs; simpl; rewrite lookup_insert_eq; simpl; by rewrite Hid.
Qed.
End Processes.

Section ProcessesEffects.
Context `{H : Host}.

Lemma spawn_effect i st :
  let st' := (spawn i st).2 in
  same_store st st' ∧ same_elsewhere i st st' ∧
  (spawn i st).1 = Ok (pluginProcesses st' !! i) ∧
  (is_Some (pluginProcesses st !! i) → st' = st) ∧
  (registry_has_info st → registry_has_info st') ∧
  (∀ k, renders_of k (trace st') = renders_of k (trace st)).
Proof.
  destruct (pluginProcesses st !! i) as [p|] eqn:Hp.
  { rewrite (spawn_running _ _ _ Hp). simpl. unfold same_store, same_elsewhere.
    repeat split; auto. by rewrite Hp. }
  destruct (getPluginFromLibrary (Some i) st).1 as [[r|]|e] eqn:Hf.
  3:{ by rewrite getPluginFromLibrary_eq in Hf. }
  2:{ rewrite (spawn_unknown _ _ Hp Hf). simpl. unfold same_store, same_elsewhere.
      repeat split; auto. by rewrite Hp. }
  rewrite (spawn_starts _ _ _ Hp Hf). cbv zeta.
  destruct (makePluginFn (code (heap st r))) as [fn|]; simpl.
  2:{ unfold start_failed, same_store, same_elsewhere; simpl. repeat split; auto.
      - by rewrite !lookup_insert_ne by done.
      - by rewrite Hp.
      - intros [? ?]; congruence.
      - intros Hinv j Hj. simpl in *. destruct (decide (j = i)) as [->|Hne].
        + rewrite lookup_insert_eq. by eexists.
        + rewrite !lookup_insert_ne by done. by apply Hinv.
      - intros k. rewrite !renders_of_app. simpl. by rewrite !app_nil_r. }
  destruct (fn (world st)) as [[regs o] w']; simpl.
  match goal with |- context [registered i regs ?t] => set (st1 := t) end.
  assert (Hreg : pluginProcesses (registered i regs st1) !! i = head regs).
  { unfold registered. subst st1; simpl. rewrite Hp.
    destruct regs; simpl; [done|]. by rewrite lookup_insert_eq. }
  assert (Hoth : ∀ j, j ≠ i → pluginProcesses (registered i regs st1) !! j =
                              pluginProcesses st !! j).
  { intros j Hj. unfold registered. subst st1; simpl. rewrite Hp.
    destruct regs; simpl; [done|]. by rewrite lookup_insert_ne. }
  assert (Hfr : same_store st (registered i regs st1) ∧
                pluginProcessInfos (registered i regs st1) =
                  <[i := new_ProcessInfo]> (pluginProcessInfos st) ∧
                trace (registered i regs st1) = trace st1).
  { unfold registered, same_store. subst st1; simpl. rewrite Hp.
    destruct regs; simpl; by repeat split. }
  destruct Hfr as ((?&?&?&?&?&?&?)&Hinf&Htr).
  assert (Hinfo : ∀ x, registry_has_info st →
            ∀ j, is_Some (pluginProcesses (registered i regs st1) !! j) →
                 is_Some (<[i := x]> (pluginProcessInfos st) !! j)).
  { intros x Hinv j Hj. destruct (decide (j = i)) as [->|Hne].
    - rewrite lookup_insert_eq. by eexists.
    - rewrite lookup_insert_ne by done. apply Hinv. by rewrite <- Hoth. }
  assert (Hrend : ∀ k extra, renders_of k extra = [] →
            renders_of k (trace st1 ++ extra) = renders_of k (trace st)).
  { intros k extra He. subst st1; simpl. rewrite !renders_of_app, He. simpl.
    by rewrite !app_nil_r. }
  destruct o; simpl; unfold start_failed, same_store, same_elsewhere; simpl;
    rewrite ?Hinf, ?Htr; simpl.
  - repeat split; auto.
    + by rewrite lookup_insert_ne.
    + intros [? ?]; congruence.
    + intros Hinv j Hj. simpl in *. rewrite Hinf. by apply Hinfo.
    + intros k. rewrite !renders_of_app. simpl. by rewrite !app_nil_r.
  - repeat split; auto.
    + by rewrite !lookup_insert_ne.
    + intros [? ?]; congruence.
    + intros Hinv j Hj. simpl in *. rewrite insert_insert_eq. by apply Hinfo.
Qed.
End ProcessesEffects.

(** ** What [render] does to the state *)

Section Rendering.
Context `{H : Host}.

(** [render] in one piece, in terms of the state its [spawn] leaves. *)
Lemma render_eq i element st :
  render i element st =
    let st1 := (spawn i st).2 in
    match pluginProcesses st1 !! i, pluginProcessInfos st1 !! i with
    | Some p, Some info =>
        match process_render p with
        | Some f =>
            if rendered info then (Ok tt, st1)
            else
              match f element (world st1) with
              | (Returns, w') =>
                  (Ok tt,
                   set_pluginProcessInfos
                     (alter (set_rendered true) i (pluginProcessInfos st1))
                     (set_world w' (emit (EvRender i element) st1)))
              | (Raises, w') =>
                  (Ok tt,
                   emit (EvConsole "failed to render plugin")
                     (set_pluginProcessInfos
                        (alter (set_hasError true) i (pluginProcessInfos st1))
                        (set_world w' (emit (EvRender i element) st1))))
              end
        | None => (Ok tt, st1)
        end
    | _, _ => (Ok tt, st1)
    end.
Proof.
  destruct (spawn_effect i st) as (_ & _ & Hres & _).
  unfold render, call, console_log. unfold_M. cbv zeta.
  destruct (spawn i st) as [res st1]. simpl in *. subst res.
  destruct (pluginProcesses st1 !! i) as [p|]; [|done].
  destruct (pluginProcessInfos st1 !! i) as [info|]; [|done].
  destruct (process_render p) as [f|]; [|done].
  destruct (rendered info); simpl; [done|].
  by destruct (f element (world st1)) as [[] w'].
Qed.

Lemma render_effect i element st :
  let st' := (render i element st).2 in
  same_store st st' ∧ same_elsewhere i st st' ∧
  (render i element st).1 = Ok tt ∧
  pluginProcesses st' = pluginProcesses (spawn i st).2 ∧
  (registry_has_info st → registry_has_info st') ∧
  (∀ k, k ≠ i → renders_of k (trace st') = renders_of k (trace st)) ∧
  (∀ p info, pluginProcesses st !! i = Some p →
             pluginProcessInfos st !! i = Some info →
             rendered info = true → st' = st).
Proof.
  destruct (spawn_effect i st) as (Hst & Hel & Hres & Hlive & Hinv & Hrend).
  rewrite render_eq. cbv zeta in *.
  set (st1 := (spawn i st).2) in *.
  assert (Hkeep : ∀ (f : ProcessInfo → ProcessInfo) (t : State),
            pluginProcesses t = pluginProcesses st1 →
            pluginProcessInfos t = alter f i (pluginProcessInfos st1) →
            registry_has_info st → registry_has_info t).
  { intros f t Hp Hi Hr j. rewrite Hp, Hi. intros Hj. apply Hinv in Hj; [|done].
    destruct (decide (j = i)) as [->|Hne].
    - rewrite lookup_alter_eq. destruct Hj as [x ->]. by eexists.
    - by rewrite lookup_alter_ne. }
  assert (Hstay : ((∀ p info, pluginProcesses st !! i = Some p →
                      pluginProcessInfos st !! i = Some info →
                      rendered info = true → st1 = st)) →
            same_store st st1 ∧ same_elsewhere i st st1 ∧
            Ok tt = Ok tt ∧ pluginProcesses st1 = pluginProcesses st1 ∧
            (registry_has_info st → registry_has_info st1) ∧
            (∀ k, k ≠ i → renders_of k (trace st1) = renders_of k (trace st)) ∧
            (∀ p info, pluginProcesses st !! i = Some p →
                      pluginProcessInfos st !! i = Some info →
                      rendered info = true → st1 = st)).
  { intros Hlast. split; [exact Hst|]. split; [exact Hel|]. split; [done|].
    split; [done|]. split; [exact Hinv|]. split; [|exact Hlast].
    intros k _. apply Hrend. }
  assert (Hsame : ∀ p, pluginProcesses st !! i = Some p → st1 = st).
  { intros p Hp. apply Hlive. by rewrite Hp. }
  destruct (pluginProcesses st1 !! i) as [p|] eqn:Hp1; simpl.
  2:{ apply Hstay. intros p info Hp _ _. by apply (Hsame p). }
  destruct (pluginProcessInfos st1 !! i) as [info|] eqn:Hi1; simpl.
  2:{ apply Hstay. intros p' info Hp _ _. by apply (Hsame p'). }
  destruct (process_render p) as [f|].
  2:{ apply Hstay. intros p' info' Hp _ _. by apply (Hsame p'). }
  destruct (rendered info) eqn:Hr.
  { apply Hstay. intros p' info' Hp _ _. by apply (Hsame p'). }
  assert (Hfresh : ∀ p' info', pluginProcesses st !! i = Some p' →
            pluginProcessInfos st !! i = Some info' → rendered info' = true → False).
  { intros p' info' Hp Hi Hr'. rewrite (Hsame p' Hp) in Hi1. congruence. }
  destruct Hst as (?&?&?&?&?&?&?).
  destruct (f element (world st1)) as [[] w']; simpl; unfold same_store, same_elsewhere; simpl.
  - repeat split; auto; try (apply Hel; done).
    + rewrite lookup_alter_ne by done. by apply Hel.
    + by apply (Hkeep (set_rendered true)).
    + intros k Hk. rewrite renders_of_app. simpl.
      destruct (String.eqb_spec i k) as [->|_]; [done|]. rewrite app_nil_r. by apply Hrend.
    + intros p' info' Hp Hi Hr'. by destruct (Hfresh p' info').
  - repeat split; auto; try (apply Hel; done).
    + rewrite lookup_alter_ne by done. by apply Hel.
    + by apply (Hkeep (set_hasError true)).
    + intros k Hk. rewrite !renders_of_app. simpl.
      destruct (String.eqb_spec i k) as [->|_]; [done|]. rewrite !app_nil_r. by apply Hrend.
    + intros p' info' Hp Hi Hr'. by destruct (Hfresh p' info').
Qed.
End Rendering.

(** ** What the library methods do to the state *)

Section Library.
Context `{H : Host}.

Lemma contents_same st st' refs :
  (∀ r, In r refs → heap st' r = heap st r) → contents st' refs = contents st refs.
Proof. intros Hh. unfold contents. by apply List.map_ext_in. Qed.

Lemma library_allocated_In st r :
  library_allocated st → In r (pluginLibrary st) → r < heapNext st.
Proof.
  unfold library_allocated. rewrite List.Forall_forall. intros Ha Hin. by apply Ha.
Qed.

Lemma alloc_all_effect vs st :
  let st' := (alloc_all vs st).2 in
  (alloc_all vs st).1 = Ok (seq (heapNext st) (length vs)) ∧
  heapNext st' = heapNext st + length vs ∧
  (∀ r, r < heapNext st → heap st' r = heap st r) ∧
  contents st' (seq (heapNext st) (length vs)) = vs ∧
  same_but_heap st st'.
Proof.
  revert st. induction vs as [|v vs IH]; intros st; simpl.
  { unfold same_but_heap, same_processes. repeat split; auto. }
  unfold alloc at 1 2 3 4 5. unfold_M. simpl.
  match goal with |- context [alloc_all vs ?t] => specialize (IH t); set (st1 := t) in * end.
  cbv zeta in IH. destruct (alloc_all vs st1) as [res st2]. simpl in *.
  destruct IH as (-> & Hn & Hh & Hc & Hs). simpl.
  split; [done|]. split; [lia|]. split; [|split].
  - intros r Hr. rewrite Hh by lia. destruct (Nat.eqb_spec r (heapNext st)); [lia|done].
  - unfold contents in *. simpl. rewrite Hc. f_equal.
    rewrite Hh by lia. by rewrite Nat.eqb_refl.
  - unfold same_but_heap, same_processes in *. subst st1. simpl in *. done.
Qed.

Lemma addPluginToLibrary_effect name code st :
  let st' := (addPluginToLibrary name code st).2 in
  (addPluginToLibrary name code st).1 = Ok (S (heapNext st)) ∧
  same_processes st st' ∧ world st' = world st ∧ uiManager st' = uiManager st ∧
  uuids st' = S (uuids st) ∧ ticks st' = S (ticks st) ∧
  pluginLibrary st' = pluginLibrary st ++ [heapNext st] ∧
  heapNext st' = S (S (heapNext st)) ∧
  heap st' (heapNext st) = newPlugin name code st ∧
  heap st' (S (heapNext st)) = newPlugin name code st ∧
  (∀ r, r < heapNext st → heap st' r = heap st r) ∧
  (∀ k, renders_of k (trace st') = renders_of k (trace st)) ∧
  (library_allocated st →
     gameManager st' = contents st (pluginLibrary st) ++ [newPlugin name code st] ∧
     contents st' (pluginLibrary st') = gameManager st' ∧
     library_allocated st').
Proof.
  unfold addPluginToLibrary, copy_object, savePlugins, alloc, new_Date_getTime,
    call_uuidv4. unfold_M. simpl.
  rewrite Nat.eqb_refl.
  destruct (Nat.eqb_spec (heapNext st) (S (heapNext st))); [lia|].
  unfold same_processes, newPlugin.
  split; [done|]. split; [done|]. do 8 (split; [done|]).
  split. { intros r Hr. destruct (Nat.eqb_spec r (S (heapNext st))); [lia|].
           destruct (Nat.eqb_spec r (heapNext st)); [lia|done]. }
  split. { intros k. rewrite renders_of_app. simpl. by rewrite app_nil_r. }
  intros Ha.
  assert (Hold : ∀ (h : Ref → SerializedPlugin) x,
            map (λ r, if Nat.eqb r (heapNext st) then x else h r) (pluginLibrary st) =
            map h (pluginLibrary st)).
  { intros h x. apply List.map_ext_in. intros r Hr.
    apply (library_allocated_In _ _ Ha) in Hr.
    destruct (Nat.eqb_spec r (heapNext st)); [lia|done]. }
  unfold contents. rewrite !map_app. simpl. rewrite Nat.eqb_refl.
  destruct (Nat.eqb_spec (heapNext st) (S (heapNext st))); [lia|].
  rewrite Hold. split; [done|]. split.
  - f_equal. apply List.map_ext_in. intros r Hr.
    apply (library_allocated_In _ _ Ha) in Hr.
    destruct (Nat.eqb_spec r (S (heapNext st))); [lia|].
    destruct (Nat.eqb_spec r (heapNext st)); [lia|done].
  - unfold library_allocated in *. simpl. apply Forall_app. split.
    + eapply Forall_impl; [exact Ha|]. simpl. intros; lia.
    + constructor; [lia|constructor].
Qed.
End Library.

Section LibraryLoad.
Context `{H : Host}.

Lemma library_allocated_seq st st' n :
  pluginLibrary st' = seq (heapNext st) n → heapNext st' = heapNext st + n →
  library_allocated st'.
Proof.
  intros Hl Hn. unfold library_allocated. rewrite Hl, Hn.
  apply List.Forall_forall. intros r Hr. apply List.in_seq in Hr. lia.
Qed.

Local Opaque addPluginToLibrary alloc_all.

Lemma load_effect st :
  let st' := (load st).2 in
  (load st).1 = Ok tt ∧ same_processes st st' ∧ world st' = world st ∧
  uiManager st' = true ∧ library_allocated st' ∧
  contents st' (pluginLibrary st') = gameManager st' ∧
  (uiManager st = true → gameManager st' = gameManager st) ∧
  (uiManager st = false → library_allocated st →
     gameManager st' = contents st (pluginLibrary st) ++ defaultPlugins st) ∧
  (∀ k, renders_of k (trace st') = renders_of k (trace st)).
Proof.
  unfold load, getUIDataItem_hasAddedDefaultPlugins,
    setUIDataItem_hasAddedDefaultPlugins, loadPlugins. unfold_M. simpl.
  destruct (uiManager st) eqn:Hflag; simpl.
  - pose proof (alloc_all_effect (gameManager st) st) as (Hres & Hn & Hh & Hc & Hs).
    cbv zeta in *. destruct (alloc_all (gameManager st) st) as [res st1].
    simpl in *. subst res. simpl.
    destruct Hs as (Hg & Hu & Hl & Hp & Hw & _ & _ & Ht).
    split; [done|]. split; [exact Hp|]. split; [done|]. split; [congruence|].
    split. { eapply library_allocated_seq; simpl; eauto. }
    split. { unfold contents in *. simpl. by rewrite Hc. }
    split; [done|]. split; [done|]. intros k. by rewrite Ht.
  - pose proof (addPluginToLibrary_effect "README" README_PLUGIN (set_uiManager true st))
      as (_ & Hp1 & Hw1 & Hu1 & Hid1 & Htk1 & Hl1 & Hn1 & _ & _ & Hh1 & Hr1 & Ha1).
    cbv zeta in *.
    destruct (addPluginToLibrary "README" README_PLUGIN (set_uiManager true st))
      as [[r1|e1] st1] eqn:E1; simpl in *.
    2:{ pose proof (addPluginToLibrary_effect "README" README_PLUGIN (set_uiManager true st))
          as (Hbad & _). rewrite E1 in Hbad. done. }
    pose proof (addPluginToLibrary_effect "Artifacts Finder" ARTIFACT_FINDER_PLUGIN st1)
      as (_ & Hp2 & Hw2 & Hu2 & Hid2 & Htk2 & Hl2 & Hn2 & _ & _ & Hh2 & Hr2 & Ha2).
    cbv zeta in *.
    destruct (addPluginToLibrary "Artifacts Finder" ARTIFACT_FINDER_PLUGIN st1)
      as [[r2|e2] st2] eqn:E2; simpl in *.
    2:{ pose proof (addPluginToLibrary_effect "Artifacts Finder" ARTIFACT_FINDER_PLUGIN st1)
          as (Hbad & _). rewrite E2 in Hbad. done. }
    pose proof (alloc_all_effect (gameManager st2) st2) as (Hres & Hn & Hh & Hc & Hs).
    cbv zeta in *. destruct (alloc_all (gameManager st2) st2) as [res st3].
    simpl in *. subst res. simpl.
    destruct Hs as (Hg & Hu & Hl & Hp & Hw & _ & _ & Ht).
    destruct Hp1 as [Hp1 Hq1], Hp2 as [Hp2 Hq2], Hp as [Hp Hq]. simpl in *.
    split; [done|]. split. { split; simpl; congruence. }
    split; [congruence|]. split; [congruence|].
    split. { eapply library_allocated_seq; simpl; eauto. }
    split. { unfold contents in *. simpl. by rewrite Hc. }
    split; [done|]. split.
    + intros _ Ha. rewrite Hg.
      destruct (Ha1 Ha) as (Hg1 & Hc1 & Hal1).
      destruct (Ha2 Hal1) as (Hg2 & _ & _).
      rewrite Hg2, Hc1, Hg1. rewrite <- app_assoc. simpl.
      unfold newPlugin, defaultPlugins. simpl. rewrite Hid1, Htk1. done.
    + intros k. rewrite Ht, Hr2, Hr1. done.
Qed.

Local Transparent addPluginToLibrary alloc_all.
End LibraryLoad.

Section LibraryEdit.
Context `{H : Host}.

Local Opaque destroy.

Lemma deletePlugin_effect i st :
  let st' := (deletePlugin i st).2 in
  pluginProcesses st' = delete i (pluginProcesses st) ∧
  pluginProcessInfos st' =
    match pluginProcesses st !! i with
    | Some _ => delete i (pluginProcessInfos st)
    | None => pluginProcessInfos st
    end ∧
  pluginLibrary st' =
    List.filter (λ p, negb (String.eqb (id (heap st p)) i)) (pluginLibrary st) ∧
  heap st' = heap st ∧ heapNext st' = heapNext st ∧ uiManager st' = uiManager st ∧
  (∀ k, renders_of k (trace st') = renders_of k (trace st)) ∧
  (registry_has_info st →
     (deletePlugin i st).1 = Ok tt ∧
     gameManager st' = contents st' (pluginLibrary st')).
Proof.
  unfold deletePlugin, savePlugins. unfold_M. simpl.
  match goal with |- context [destroy i ?t] =>
    pose proof (destroy_effect i t) as (Hs & Hp & Hi & Hr & Hok); set (st1 := t) in * end.
  cbv zeta in *. destruct (destroy i st1) as [[[]|e] st2]; simpl in *;
    destruct Hs as (Hg & Hu & Hl & Hh & Hn & _ & _); subst st1; simpl in *.
  - repeat split; auto. intros k. rewrite renders_of_app. simpl.
    by rewrite app_nil_r.
  - repeat split; auto. all: match goal with Hinv : registry_has_info _ |- _ => by specialize (Hok Hinv) end.
Qed.

Lemma overwritePlugin_effect newName pluginCode i st :
  let st' := (overwritePlugin newName pluginCode i st).2 in
  pluginProcesses st' = delete i (pluginProcesses st) ∧
  pluginProcessInfos st' =
    match pluginProcesses st !! i with
    | Some _ => delete i (pluginProcessInfos st)
    | None => pluginProcessInfos st
    end ∧
  pluginLibrary st' = pluginLibrary st ∧ heapNext st' = heapNext st ∧
  uiManager st' = uiManager st ∧
  (∀ r, id (heap st' r) = id (heap st r)) ∧
  (∀ k, renders_of k (trace st') = renders_of k (trace st)) ∧
  (registry_has_info st →
     (overwritePlugin newName pluginCode i st).1 = Ok tt ∧
     match (getPluginFromLibrary (Some i) st).1 with
     | Ok (Some r) =>
         heap st' r = mkPlugin (id (heap st r)) newName pluginCode
                        (Date_getTime (ticks st)) (enabled (heap st r)) ∧
         (∀ r', r' ≠ r → heap st' r' = heap st r') ∧
         gameManager st' = contents st' (pluginLibrary st')
     | _ =>
         heap st' = heap st ∧ gameManager st' = gameManager st ∧
         trace st' = trace (destroy i st).2
     end).
Proof.
  unfold overwritePlugin, savePlugins, write, new_Date_getTime. unfold_M.
  pose proof (destroy_effect i st) as (Hs & Hp & Hi & Hr & Hok).
  rewrite getPluginFromLibrary_eq.
  cbv zeta in *. destruct (destroy i st) as [[[]|e] st1]; simpl in *;
    destruct Hs as (Hg & Hu & Hl & Hh & Hn & _ & Htk).
  2:{ repeat split; auto; try congruence.
      all: match goal with Hinv : registry_has_info _ |- _ => by specialize (Hok Hinv) end. }
  rewrite Hh, Hl.
  destruct (List.find _ (pluginLibrary st)) as [r|] eqn:Hf; simpl.
  2:{ repeat split; auto; congruence. }
  rewrite Hh, Hl, Htk.
  repeat split; auto.
  - intros r'. by destruct (Nat.eqb_spec r' r).
  - intros k. rewrite renders_of_app. simpl. by rewrite app_nil_r.
  - by rewrite Nat.eqb_refl.
  - intros r' Hr'. by destruct (Nat.eqb_spec r' r).
Qed.

Local Transparent destroy.
End LibraryEdit.

(** ** Invariants of the public interface *)

Section Invariants.
Context `{H : Host}.

Lemma perform_spawn i st : (perform (Spawn i) st).2 = (spawn i st).2.
Proof. simpl. unfold_M. by destruct (spawn i st) as [[] ?]. Qed.

Lemma perform_add name code st :
  (perform (AddPluginToLibrary name code) st).2 = (addPluginToLibrary name code st).2.
Proof. simpl. unfold_M. by destruct (addPluginToLibrary name code st) as [[] ?]. Qed.

(** What tearing [i] down leaves of an invariant registry. *)
Lemma torn_down_has_info i st st' :
  pluginProcesses st' = delete i (pluginProcesses st) →
  pluginProcessInfos st' =
    match pluginProcesses st !! i with
    | Some _ => delete i (pluginProcessInfos st)
    | None => pluginProcessInfos st
    end →
  registry_has_info st → registry_has_info st'.
Proof.
  intros Hp Hi Hinv j. rewrite Hp, Hi. intros Hj.
  destruct (decide (j = i)) as [->|Hne].
  { rewrite lookup_delete_eq in Hj. by destruct Hj. }
  rewrite lookup_delete_ne in Hj by done. apply Hinv in Hj.
  destruct (pluginProcesses st !! i); [|done]. by rewrite lookup_delete_ne.
Qed.

Lemma perform_registry_has_info op st :
  registry_has_info st → registry_has_info (perform op st).2.
Proof.
  intros Hinv. destruct op as [|n c|n c i|i|i|i e|i].
  - destruct (load_effect st) as (_ & [Hp Hi] & _). intros j. simpl.
    rewrite Hp, Hi. apply Hinv.
  - rewrite perform_add.
    destruct (addPluginToLibrary_effect n c st) as (_ & [Hp Hi] & _).
    intros j. rewrite Hp, Hi. apply Hinv.
  - destruct (overwritePlugin_effect n c i st) as (Hp & Hi & _).
    by apply (torn_down_has_info i st).
  - destruct (deletePlugin_effect i st) as (Hp & Hi & _).
    by apply (torn_down_has_info i st).
  - rewrite perform_spawn. by apply spawn_effect.
  - by apply render_effect.
  - destruct (destroy_effect i st) as (_ & Hp & Hi & _).
    by apply (torn_down_has_info i st).
Qed.

Lemma perform_library_allocated op st :
  library_allocated st → library_allocated (perform op st).2.
Proof.
  intros Ha.
  assert (Hsame : ∀ st', pluginLibrary st' = pluginLibrary st →
                         heapNext st' = heapNext st → library_allocated st').
  { intros st' Hl Hn. unfold library_allocated. by rewrite Hl, Hn. }
  destruct op as [|n c|n c i|i|i|i e|i].
  - by apply load_effect.
  - rewrite perform_add. by apply addPluginToLibrary_effect.
  - destruct (overwritePlugin_effect n c i st) as (_ & _ & Hl & Hn & _). by apply Hsame.
  - destruct (deletePlugin_effect i st) as (_ & _ & Hl & _ & Hn & _).
    unfold library_allocated in *. simpl. rewrite Hl, Hn.
    apply List.Forall_forall. intros r Hr. apply List.filter_In in Hr as [Hr _].
    revert r Hr. by apply List.Forall_forall.
  - rewrite perform_spawn. destruct (spawn_effect i st) as ((_&_&Hl&_&Hn&_) & _).
    by apply Hsame.
  - destruct (render_effect i e st) as ((_&_&Hl&_&Hn&_) & _). by apply Hsame.
  - destruct (destroy_effect i st) as ((_&_&Hl&_&Hn&_) & _). by apply Hsame.
Qed.

Lemma after_snoc ops op st : after (ops ++ [op]) st = (perform op (after ops st)).2.
Proof. unfold after. by rewrite foldl_app. Qed.

Lemma reachable_invariants st :
  reachable st → registry_has_info st ∧ library_allocated st.
Proof.
  intros (saved & flag & w & ops & ->).
  induction ops as [|op ops IH] using rev_ind.
  - split.
    + intros i [x Hx]. simpl in Hx. by rewrite lookup_empty in Hx.
    + constructor.
  - rewrite after_snoc. destruct IH as [IH1 IH2]. split.
    + by apply perform_registry_has_info.
    + by apply perform_library_allocated.
Qed.

Lemma reachable_perform op st : reachable st → reachable (perform op st).2.
Proof.
  intros (saved & flag & w & ops & ->). exists saved, flag, w, (ops ++ [op]).
  by rewrite after_snoc.
Qed.

Lemma perform_keeps_rendered op i st :
  tears_down i op = false → rendered_live i st →
  rendered_live i (perform op st).2 ∧
  pluginProcesses (perform op st).2 !! i = pluginProcesses st !! i ∧
  renders_of i (trace (perform op st).2) = renders_of i (trace st).
Proof.
  intros Hop Hlive.
  assert (Hsame : ∀ st', pluginProcesses st' !! i = pluginProcesses st !! i →
            pluginProcessInfos st' !! i = pluginProcessInfos st !! i →
            renders_of i (trace st') = renders_of i (trace st) →
            rendered_live i st' ∧
            pluginProcesses st' !! i = pluginProcesses st !! i ∧
            renders_of i (trace st') = renders_of i (trace st)).
  { intros st' Hp Hi Hr. unfold rendered_live. by rewrite Hp, Hi. }
  assert (Htorn : ∀ j st', String.eqb j i = false →
            pluginProcesses st' = delete j (pluginProcesses st) →
            pluginProcessInfos st' =
              match pluginProcesses st !! j with
              | Some _ => delete j (pluginProcessInfos st)
              | None => pluginProcessInfos st
              end →
            pluginProcesses st' !! i = pluginProcesses st !! i ∧
            pluginProcessInfos st' !! i = pluginProcessInfos st !! i).
  { intros j st' Hj Hp Hi. apply String.eqb_neq in Hj. rewrite Hp, Hi.
    rewrite lookup_delete_ne by done. split; [done|].
    destruct (pluginProcesses st !! j); [|done]. by rewrite lookup_delete_ne. }
  destruct op as [|n c|n c j|j|j|j e|j]; simpl in Hop.
  - change (perform Load st) with (load st).
    destruct (load_effect st) as (_ & [Hp Hi] & _ & _ & _ & _ & _ & _ & Hr).
    apply Hsame; [by rewrite Hp|by rewrite Hi|apply Hr].
  - rewrite perform_add.
    destruct (addPluginToLibrary_effect n c st)
      as (_ & [Hp Hi] & _ & _ & _ & _ & _ & _ & _ & _ & _ & Hr & _).
    apply Hsame; [by rewrite Hp|by rewrite Hi|apply Hr].
  - change (perform (OverwritePlugin n c j) st) with (overwritePlugin n c j st).
    destruct (overwritePlugin_effect n c j st) as (Hp & Hi & _ & _ & _ & _ & Hr & _).
    destruct (Htorn j _ Hop Hp Hi). by apply Hsame.
  - change (perform (DeletePlugin j) st) with (deletePlugin j st).
    destruct (deletePlugin_effect j st) as (Hp & Hi & _ & _ & _ & _ & Hr & _).
    destruct (Htorn j _ Hop Hp Hi). by apply Hsame.
  - rewrite perform_spawn.
    destruct (spawn_effect j st) as (_ & Hel & _ & Hlive' & _ & Hr).
    destruct (decide (i = j)) as [->|Hne].
    + cbv zeta in *. rewrite Hlive' by apply Hlive. by apply Hsame.
    + destruct (Hel i Hne). by apply Hsame.
  - change (perform (Render j e) st) with (render j e st).
    destruct (render_effect j e st) as (_ & Hel & _ & _ & _ & Hr & Hdone).
    destruct (decide (i = j)) as [->|Hne].
    + destruct Hlive as [[p Hp] (info & Hi & Hrd)].
      cbv zeta in *. rewrite (Hdone p info Hp Hi Hrd). by apply Hsame.
    + destruct (Hel i Hne). apply Hsame; auto.
  - change (perform (Destroy j) st) with (destroy j st).
    destruct (destroy_effect j st) as (_ & Hp & Hi & Hr & _).
    destruct (Htorn j _ Hop Hp Hi). by apply Hsame.
Qed.
End Invariants.

(** * The claims *)

Section Claims.
Context `{H : Host}.

(** One [spawn] invokes plugin source at most once. *)
Lemma spawn_invokes_at_most_once (i : PluginId) st :
  (length (invokes_of (trace (spawn i st).2)) ≤ S (length (invokes_of (trace st))))%nat.
Proof.
  destruct (pluginProcesses st !! i) as [p|] eqn:Hp.
  { rewrite (spawn_running _ _ _ Hp). simpl. lia. }
  destruct (getPluginFromLibrary (Some i) st).1 as [[r|]|e] eqn:Hf.
  3:{ by rewrite getPluginFromLibrary_eq in Hf. }
  2:{ rewrite (spawn_unknown _ _ Hp Hf). simpl. lia. }
  rewrite (spawn_starts _ _ _ Hp Hf). cbv zeta.
  assert (Htr : ∀ ps t, trace (registered i ps t) = trace t).
  { intros ps t. unfold registered. by destruct (pluginProcesses t !! i), ps. }
  unfold invokes_of.
  destruct (makePluginFn (code (heap st r))) as [fn|]; simpl.
  2:{ rewrite !List.filter_app, !length_app. simpl. lia. }
  destruct (fn (world st)) as [[regs []] w']; simpl; rewrite Htr; simpl;
    rewrite !List.filter_app, !length_app; simpl; lia.
Qed.

(** C1.  When the registry already holds a live instance for [i],
    [spawn i] returns that very instance and leaves the state, hence the
    trace, as it was: the plugin source is neither compiled nor invoked
    again.  So a second call in a row returns the same instance and still
    runs nothing; and when the live instance is what an earlier [spawn i]
    left, that call returned the same instance, and the calls together
    invoked plugin source at most once. *)
Theorem spawn_returns_running_instance (i : PluginId) (p : PluginProcess W) st :
  pluginProcesses st !! i = Some p →
  spawn i st = (Ok (Some p), st) ∧
  spawn i (spawn i st).2 = (Ok (Some p), st) ∧
  runs_of (trace (spawn i (spawn i st).2).2) = runs_of (trace st) ∧
  (∀ st0, st = (spawn i st0).2 →
     (spawn i st0).1 = Ok (Some p) ∧
     (length (invokes_of (trace (spawn i st).2))
      ≤ S (length (invokes_of (trace st0))))%nat).
Proof.
  intros Hp. rewrite (spawn_running _ _ _ Hp). simpl.
  rewrite (spawn_running _ _ _ Hp). split; [done|]. split; [done|]. split; [done|].
  intros st0 ->. destruct (spawn_effect i st0) as (_ & _ & Hres & _).
  cbv zeta in Hres. split; [by rewrite Hres, Hp|]. apply spawn_invokes_at_most_once.
Qed.

(** A first [spawn] that returns an instance makes the second one return
    the same instance without touching the state. *)
Lemma spawn_again_after_start (i : PluginId) (p : PluginProcess W) st :
  (spawn i st).1 = Ok (Some p) →
  spawn i (spawn i st).2 = (Ok (Some p), (spawn i st).2).
Proof.
  intros Hres. destruct (spawn_effect i st) as (_ & _ & Hr & _).
  cbv zeta in Hr. rewrite Hr in Hres. injection Hres as Hp.
  by apply spawn_running.
Qed.


(** C3.  For a definition of the library that is not running, a run of the
    compiled source that raises is contained: [spawn] returns normally, the
    record created for [i] reads [hasError = true], and the registry holds,
    and [spawn] returns, the first instance the run handed to [register]
    (nothing when it registered none).  [register] itself installs an
    instance only into an empty slot and ignores every later call. *)
Theorem spawn_contains_start_failure (i : PluginId) (r : Ref)
    (pluginFn : PluginFn W) st :
  pluginProcesses st !! i = None →
  (getPluginFromLibrary (Some i) st).1 = Ok (Some r) →
  makePluginFn (code (heap st r)) = Some pluginFn →
  (pluginFn (world st)).1.2 = Raises →
  let registrations := (pluginFn (world st)).1.1 in
  (spawn i st).1 = Ok (head registrations) ∧
  pluginProcesses (spawn i st).2 !! i = head registrations ∧
  pluginProcessInfos (spawn i st).2 !! i =
    Some {| rendered := false; hasError := true |} ∧
  (∀ q s, pluginProcesses s !! i = None →
          (register i q s).1 = Ok tt ∧
          pluginProcesses (register i q s).2 !! i = Some q) ∧
  (∀ q s, is_Some (pluginProcesses s !! i) → register i q s = (Ok tt, s)).
Proof.
  intros Hp Hf Hfn Hraises. rewrite (spawn_starts _ _ _ Hp Hf). cbv zeta.
  rewrite Hfn, Hraises. simpl.
  assert (Hhead : ∀ t, pluginProcesses t !! i = None →
            pluginProcesses (registered i (pluginFn (world st)).1.1 t) !! i =
            head (pluginFn (world st)).1.1).
  { intros t Ht. unfold registered. rewrite Ht.
    destruct (pluginFn (world st)).1.1; simpl; [done|]. by rewrite lookup_insert_eq. }
  unfold start_failed. simpl. rewrite !Hhead by done.
  split; [done|]. split; [done|]. split; [by rewrite lookup_insert_eq|].
  split.
  - intros q s Hs. rewrite register_eq, Hs. simpl. by rewrite lookup_insert_eq.
  - intros q s [q0 Hs]. by rewrite register_eq, Hs.
Qed.

(** A source text the [AsyncFunction] constructor rejects is contained the
    same way: nothing is registered, the record reads [hasError = true]. *)
Lemma spawn_contains_syntax_error (i : PluginId) (r : Ref) st :
  pluginProcesses st !! i = None →
  (getPluginFromLibrary (Some i) st).1 = Ok (Some r) →
  makePluginFn (code (heap st r)) = None →
  (spawn i st).1 = Ok None ∧
  pluginProcesses (spawn i st).2 !! i = None ∧
  pluginProcessInfos (spawn i st).2 !! i =
    Some {| rendered := false; hasError := true |}.
Proof.
  intros Hp Hf Hfn. rewrite (spawn_starts _ _ _ Hp Hf). cbv zeta.
  rewrite Hfn. unfold start_failed. simpl. by rewrite lookup_insert_eq.
Qed.


Lemma collect_eq (ids : list PluginId) (acc : gmap PluginId ProcessInfo) st :
  (∀ k, k ∈ ids → is_Some (pluginProcessInfos st !! k)) →
  ∃ m, collect ids acc st = (Ok m, st) ∧
       ∀ j, m !! j = if decide (j ∈ ids) then pluginProcessInfos st !! j else acc !! j.
Proof.
  revert acc. induction ids as [|k ids IH]; intros acc Hall.
  { exists acc. split; [done|]. intros j. rewrite decide_False; [done|].
    apply not_elem_of_nil. }
  destruct (Hall k) as [info Hk]; [by left|].
  destruct (IH (<[k := info]> acc)) as (m & Hm & Hlook); [intros; apply Hall; by right|].
  exists m. split.
  - simpl. unfold_M. rewrite Hk, copy_info. exact Hm.
  - intros j. rewrite Hlook. destruct (decide (j ∈ ids)) as [Hin|Hnin].
    + by rewrite decide_True by (by right).
    + destruct (decide (j = k)) as [->|Hne].
      * rewrite decide_True by (by left). by rewrite lookup_insert_eq.
      * rewrite decide_False; [by rewrite lookup_insert_ne|].
        intros Hx. by apply elem_of_cons in Hx as [?|?].
Qed.

Lemma getAllProcessInfos_eq st :
  getAllProcessInfos st = (Ok (pluginProcessInfos st), st).
Proof.
  unfold getAllProcessInfos. unfold_M.
  destruct (collect_eq (map_to_list (pluginProcessInfos st)).*1 ∅ st)
    as (m & Hm & Hlook).
  { intros k Hk. apply list_elem_of_fmap in Hk as ([k' v] & -> & Hkv).
    apply elem_of_map_to_list in Hkv. simpl. by eexists. }
  rewrite Hm. f_equal. f_equal. apply map_eq. intros j. rewrite Hlook.
  destruct (decide _) as [Hin|Hnin]; [done|]. rewrite lookup_empty. symmetry.
  destruct (pluginProcessInfos st !! j) as [v|] eqn:Hj; [|done].
  exfalso. apply Hnin. apply list_elem_of_fmap. exists (j, v). split; [done|].
  by apply elem_of_map_to_list.
Qed.


(** C9.  With the [hasAddedDefaultPlugins] flag unset, [load] returns
    normally, sets the flag, and leaves a library that is the one it found
    followed by the README and Artifacts Finder definitions; what is saved
    equals the library in memory.  A second [load] returns normally and
    leaves the same library and the same saved plugins: nothing is added
    again.  On a manager whose library is still empty, the library after
    the first [load] is exactly the two definitions. *)
Theorem load_seeds_defaults_once st :
  reachable st → uiManager st = false →
  let st1 := (load st).2 in
  let st2 := (load st1).2 in
  (load st).1 = Ok tt ∧ uiManager st1 = true ∧
  contents st1 (pluginLibrary st1) =
    contents st (pluginLibrary st) ++ defaultPlugins st ∧
  (pluginLibrary st = [] → contents st1 (pluginLibrary st1) = defaultPlugins st) ∧
  gameManager st1 = contents st1 (pluginLibrary st1) ∧
  (load st1).1 = Ok tt ∧ uiManager st2 = true ∧
  contents st2 (pluginLibrary st2) = contents st1 (pluginLibrary st1) ∧
  gameManager st2 = gameManager st1.
Proof.
  intros Hreach Hflag. apply reachable_invariants in Hreach as [_ Ha].
  destruct (load_effect st) as (Hok & _ & _ & Hu & Ha1 & Hc & _ & Hg & _).
  destruct (load_effect (load st).2) as (Hok2 & _ & _ & Hu2 & _ & Hc2 & Hg2 & _).
  cbv zeta in *. specialize (Hg Hflag Ha). specialize (Hg2 Hu).
  split; [done|]. split; [done|]. split; [by rewrite Hc, Hg|].
  split; [intros Hl; by rewrite Hc, Hg, Hl|]. split; [done|]. split; [done|].
  split; [done|]. split; [by rewrite Hc2, Hg2, Hc|done].
Qed.

(** A start compiles the source found in the library before anything
    else, and invokes it when it compiled. *)
Lemma spawn_starts_trace (i : PluginId) (r : Ref) st :
  pluginProcesses st !! i = None →
  (getPluginFromLibrary (Some i) st).1 = Ok (Some r) →
  ∃ rest,
    trace (spawn i st).2 = trace st ++ EvCompile i (code (heap st r)) :: rest ∧
    (is_Some (makePluginFn (code (heap st r))) →
       ∃ rest', rest = EvInvoke i (code (heap st r)) :: rest').
Proof.
  intros Hp Hf. rewrite (spawn_starts _ _ _ Hp Hf). cbv zeta.
  assert (Htr : ∀ ps t, trace (registered i ps t) = trace t).
  { intros ps t. unfold registered. by destruct (pluginProcesses t !! i), ps. }
  destruct (makePluginFn (code (heap st r))) as [fn|]; simpl.
  2:{ eexists. rewrite <- !app_assoc. simpl. split; [done|]. by intros [? ?]. }
  destruct (fn (world st)) as [[regs []] w']; simpl; rewrite Htr; simpl.
  - eexists. rewrite <- !app_assoc. simpl. split; [done|]. intros _. by eexists.
  - eexists. rewrite <- !app_assoc. simpl. split; [done|]. intros _. by eexists.
Qed.


(** While no call tears the process of [i] down, a process whose [render]
    has returned is not rendered again. *)
Lemma after_keeps_rendered (ops : list Op) (i : PluginId) st :
  Forall (λ op, tears_down i op = false) ops → rendered_live i st →
  rendered_live i (after ops st) ∧
  renders_of i (trace (after ops st)) = renders_of i (trace st).
Proof.
  intros Hops. revert st. induction Hops as [|op ops Hop _ IH]; intros st Hlive.
  { done. }
  destruct (perform_keeps_rendered op i st Hop Hlive) as (Hlive' & _ & Hr).
  destruct (IH _ Hlive') as [Hlive'' Hr'']. split; [exact Hlive''|].
  change (after (op :: ops) st) with (after ops (perform op st).2).
  by rewrite Hr'', Hr.
Qed.

(** C4.  [render i element] returns normally.  After its [spawn], the
    [render] member is called exactly when the registry holds an instance
    for [i], the instance has a [render] member, a record exists for [i]
    and its [rendered] is false; otherwise [render] does nothing beyond
    that [spawn].  When the call returns, the record reads
    [rendered = true], and no sequence of calls that does not tear [i] down
    calls the member for [i] again.  When the call raises, the record reads
    [hasError = true] with [rendered] still false, and the next
    [render i] calls the member again. *)
Theorem render_once_per_success (i : PluginId) (element : HTMLDivElement) st :
  let st1 := (spawn i st).2 in
  let st2 := (render i element st).2 in
  let eligible p f info :=
    pluginProcesses st1 !! i = Some p ∧ process_render p = Some f ∧
    pluginProcessInfos st1 !! i = Some info ∧ rendered info = false in
  (render i element st).1 = Ok tt ∧
  renders_of i (trace st1) = renders_of i (trace st) ∧
  ((¬ ∃ p f info, eligible p f info) → st2 = st1) ∧
  (∀ p f info, eligible p f info →
     renders_of i (trace st2) = renders_of i (trace st1) ++ [EvRender i element] ∧
     pluginProcesses st2 !! i = Some p ∧
     match (f element (world st1)).1 with
     | Returns =>
         pluginProcessInfos st2 !! i = Some (set_rendered true info) ∧
         (∀ ops, Forall (λ op, tears_down i op = false) ops →
                 renders_of i (trace (after ops st2)) = renders_of i (trace st2))
     | Raises =>
         pluginProcessInfos st2 !! i = Some (set_hasError true info) ∧
         rendered (set_hasError true info) = false ∧
         (∀ element',
            renders_of i (trace (render i element' st2).2) =
            renders_of i (trace st2) ++ [EvRender i element'])
     end).
Proof.
  cbv zeta.
  destruct (render_effect i element st) as (_ & _ & Hok & _).
  destruct (spawn_effect i st) as (_ & _ & _ & _ & _ & Hrs).
  cbv zeta in *.
  split; [exact Hok|]. split; [apply Hrs|]. rewrite render_eq. cbv zeta.
  set (st1 := (spawn i st).2) in *.
  assert (Hself : renders_of i [EvRender i element] = [EvRender i element]).
  { simpl. by rewrite String.eqb_refl. }
  split.
  - intros Hnot.
    destruct (pluginProcesses st1 !! i) as [p|] eqn:Hp; [|done].
    destruct (pluginProcessInfos st1 !! i) as [info|] eqn:Hi; [|done].
    destruct (process_render p) as [f|] eqn:Hf; [|done].
    destruct (rendered info) eqn:Hr; [done|].
    exfalso. apply Hnot. by exists p, f, info.
  - intros p f info (Hp & Hf & Hi & Hr). rewrite Hp, Hi, Hf, Hr.
    destruct (f element (world st1)) as [[] w'] eqn:Hcall; simpl.
    + rewrite renders_of_app, Hself. split; [done|]. split; [done|].
      split; [by rewrite lookup_alter_eq, Hi|].
      intros ops Hops.
      match goal with |- context [after ops ?t] =>
        destruct (after_keeps_rendered ops i t Hops) as [_ Hkeep] end.
      { split; simpl; [by rewrite Hp|].
        exists (set_rendered true info). by rewrite lookup_alter_eq, Hi. }
      rewrite Hkeep. simpl. by rewrite renders_of_app, Hself.
    + rewrite !renders_of_app, Hself. simpl. rewrite app_nil_r.
      split; [done|]. split; [done|].
      split; [by rewrite lookup_alter_eq, Hi|]. split; [done|].
      intros element'. rewrite render_eq. cbv zeta.
      match goal with |- context [spawn i ?t] => set (st2 := t) end.
      assert (Hp2 : pluginProcesses st2 !! i = Some p) by done.
      rewrite (spawn_running _ _ _ Hp2). simpl.
      rewrite Hp, lookup_alter_eq, Hi. simpl. rewrite Hf, Hr.
      destruct (f element' w') as [[] w'']; simpl;
        rewrite !renders_of_app; simpl; rewrite String.eqb_refl; simpl;
        by rewrite ?app_nil_r.
Qed.

(** What [deletePlugin] does achieve in a reachable state: no definition
    with id [i] is left in the library, [i] has no registry entry, the
    library is saved, and the record of [i] is gone when [i] had a live
    process. *)
Lemma deletePlugin_removes_definition_and_process (i : PluginId) st :
  reachable st →
  let st' := (deletePlugin i st).2 in
  (deletePlugin i st).1 = Ok tt ∧
  (∀ r, In r (pluginLibrary st') → id (heap st' r) ≠ i) ∧
  pluginProcesses st' !! i = None ∧
  (is_Some (pluginProcesses st !! i) → pluginProcessInfos st' !! i = None) ∧
  gameManager st' = contents st' (pluginLibrary st').
Proof.
  intros Hreach. apply reachable_invariants in Hreach as [Hinv _].
  destruct (deletePlugin_effect i st) as (Hp & Hi & Hl & Hh & _ & _ & _ & Hsave).
  cbv zeta in *. destruct (Hsave Hinv) as [Hok Hg].
  split; [done|]. split; [|split; [|split; [|done]]].
  - intros r. rewrite Hl, Hh. intros Hr. apply List.filter_In in Hr as [_ Hr].
    apply negb_true_iff in Hr. by apply String.eqb_neq.
  - rewrite Hp. apply lookup_delete_eq.
  - intros [p Hlive]. rewrite Hi, Hlive. apply lookup_delete_eq.
Qed.

Lemma copy_objects_effect (refs : list Ref) st :
  (∀ r, In r refs → r < heapNext st) →
  let st' := (copy_objects refs st).2 in
  (copy_objects refs st).1 = Ok (seq (heapNext st) (length refs)) ∧
  heapNext st' = heapNext st + length refs ∧
  (∀ r, r < heapNext st → heap st' r = heap st r) ∧
  contents st' (seq (heapNext st) (length refs)) = contents st refs ∧
  same_but_heap st st'.
Proof.
  revert st. induction refs as [|x refs IH]; intros st Hold.
  { simpl. unfold same_but_heap, same_processes. by repeat split; auto. }
  set (st1 := set_heap (λ r, if Nat.eqb r (heapNext st) then heap st x else heap st r)
                       (S (heapNext st)) st).
  assert (Hstep : copy_objects (x :: refs) st =
            match copy_objects refs st1 with
            | (Ok cs, st') => (Ok (heapNext st :: cs), st')
            | (Throw e, st') => (Throw e, st')
            end).
  { simpl. unfold copy_object, alloc. unfold_M. by rewrite copy_plugin. }
  rewrite Hstep. specialize (IH st1). cbv zeta in IH.
  destruct (copy_objects refs st1) as [res st2]. simpl in IH.
  destruct IH as (-> & Hn & Hh & Hc & Hs).
  { intros r Hr. specialize (Hold r (or_intror Hr)). lia. }
  simpl. split; [done|]. split; [lia|]. split; [|split].
  - intros r Hr. rewrite Hh by lia. destruct (Nat.eqb_spec r (heapNext st)); [lia|done].
  - unfold contents in *. simpl. rewrite Hc. f_equal.
    + rewrite Hh by lia. by rewrite Nat.eqb_refl.
    + apply List.map_ext_in. intros r Hr. specialize (Hold r (or_intror Hr)).
      simpl. destruct (Nat.eqb_spec r (heapNext st)); [lia|done].
  - unfold same_but_heap, same_processes in *. simpl in *. done.
Qed.

(** [getLibrary] returns new objects with the contents of the library. *)
Lemma getLibrary_copies st :
  library_allocated st →
  (getLibrary st).1 = Ok (seq (heapNext st) (length (pluginLibrary st))) ∧
  getLibrary_contents st = Ok (contents st (pluginLibrary st)) ∧
  pluginLibrary (getLibrary st).2 = pluginLibrary st ∧
  contents (getLibrary st).2 (pluginLibrary st) = contents st (pluginLibrary st) ∧
  heapNext (getLibrary st).2 = heapNext st + length (pluginLibrary st).
Proof.
  intros Ha. unfold getLibrary_contents, getLibrary. unfold_M.
  destruct (copy_objects_effect (pluginLibrary st) st) as (Hres & Hn & Hh & Hc & Hs).
  { intros r. by apply library_allocated_In. }
  cbv zeta in *. destruct (copy_objects (pluginLibrary st) st) as [res st1].
  simpl in *. subst res. destruct Hs as (_ & _ & Hl & _).
  rewrite Hc. split; [done|]. split; [done|]. split; [done|]. split; [|done].
  apply contents_same. intros r Hr. apply Hh. by apply library_allocated_In.
Qed.

(** Assignments to an object [getLibrary] returned do not show in a later
    [getLibrary]. *)
Lemma getLibrary_isolated (r : Ref) (f : SerializedPlugin → SerializedPlugin) st :
  library_allocated st →
  ∀ refs, (getLibrary st).1 = Ok refs → In r refs →
  getLibrary_contents (write r f (getLibrary st).2).2 = getLibrary_contents st.
Proof.
  intros Ha refs Hrefs Hr.
  destruct (getLibrary_copies st Ha) as (Hres & Hview & Hl & Hc & Hn).
  rewrite Hres in Hrefs. injection Hrefs as <-. apply List.in_seq in Hr.
  set (st1 := (getLibrary st).2) in *.
  assert (Ha1 : library_allocated (write r f st1).2).
  { unfold library_allocated in *. simpl. rewrite Hl, Hn.
    eapply Forall_impl; [exact Ha|]. simpl. intros; lia. }
  destruct (getLibrary_copies _ Ha1) as (_ & -> & _). rewrite Hview. f_equal.
  simpl. rewrite Hl, <- Hc. apply contents_same. intros x Hx. simpl.
  apply (library_allocated_In _ _ Ha) in Hx.
  destruct (Nat.eqb_spec x r); [lia|done].
Qed.
End Claims.

(** * Further properties of the methods *)

(** ** Lists *)


Lemma find_app_skip {A} (f : A → bool) (l1 l2 : list A) :
  (∀ x, In x l1 → f x = false) → List.find f (l1 ++ l2) = List.find f l2.
Proof.
  induction l1 as [|x l1 IH]; intros Hall; [done|]. simpl.
  rewrite (Hall x) by (by left). apply IH. intros y Hy. apply Hall. by right.
Qed.


Lemma map_filter_comm {A B} (h : A → B) (g : B → bool) (l : list A) :
  map h (List.filter (λ x, g (h x)) l) = List.filter g (map h l).
Proof.
  induction l as [|x l IH]; [done|]. simpl. destruct (g (h x)); simpl; by rewrite IH.
Qed.

Lemma plugin_calls_app t t' : plugin_calls (t ++ t') = plugin_calls t ++ plugin_calls t'.
Proof. apply List.filter_app. Qed.

Section Further.
Context `{H : Host}.

(** X5.  Whatever [destroy i] does, and also when it throws, the registry
    has no entry for [i] afterwards; the entries of every other id, the
    library, its objects and what is saved are untouched.  A second
    [destroy i] returns normally and changes nothing, and so does
    [destroy i] when [i] is not running. *)
Theorem destroy_is_idempotent_and_local (i : PluginId) st :
  let st' := (destroy i st).2 in
  pluginProcesses st' !! i = None ∧
  same_elsewhere i st st' ∧ same_store st st' ∧
  destroy i st' = (Ok tt, st') ∧
  (pluginProcesses st !! i = None → destroy i st = (Ok tt, st)).
Proof.
  destruct (destroy_effect i st) as (Hs & Hp & Hi & _). cbv zeta in *.
  assert (Hgone : pluginProcesses (destroy i st).2 !! i = None).
  { rewrite Hp. apply lookup_delete_eq. }
  split; [exact Hgone|]. split; [|split; [exact Hs|]].
  - intros j Hj. rewrite Hp, Hi, lookup_delete_ne by done. split; [done|].
    destruct (pluginProcesses st !! i); [|done]. by rewrite lookup_delete_ne.
  - split; [by apply destroy_not_running|]. apply destroy_not_running.
Qed.



(** The registry and the record of [i] after a start. *)
Lemma spawn_starts_maps (i : PluginId) (r : Ref) st :
  pluginProcesses st !! i = None →
  (getPluginFromLibrary (Some i) st).1 = Ok (Some r) →
  pluginProcesses (spawn i st).2 !! i = head (start_registers r st) ∧
  pluginProcessInfos (spawn i st).2 !! i =
    Some {| rendered := false; hasError := start_fails r st |}.
Proof.
  intros Hp Hf. rewrite (spawn_starts _ _ _ Hp Hf). cbv zeta.
  unfold start_fails, start_registers.
  destruct (makePluginFn (code (heap st r))) as [fn|]; simpl.
  2:{ unfold start_failed. simpl. by rewrite Hp, lookup_insert_eq. }
  assert (Hreg : ∀ t, pluginProcesses t !! i = None →
            pluginProcessInfos (registered i (fn (world st)).1.1 t) = pluginProcessInfos t ∧
            pluginProcesses (registered i (fn (world st)).1.1 t) !! i =
              head (fn (world st)).1.1).
  { intros t Ht. unfold registered. rewrite Ht.
    destruct (fn (world st)).1.1; simpl; [done|]. by rewrite lookup_insert_eq. }
  match goal with |- context [registered i _ ?t] =>
    destruct (Hreg t Hp) as [Hinfo Hhead] end.
  destruct (fn (world st)).1.2; unfold start_failed; simpl; rewrite ?Hinfo; simpl.
  - split; [exact Hhead|]. by rewrite lookup_insert_eq.
  - split; [exact Hhead|]. by rewrite lookup_insert_eq.
Qed.

(** X7.  A definition whose source text the [AsyncFunction] constructor
    rejects is contained like a run that raises: [spawn] returns [undefined]
    without throwing, nothing is registered, the record reads
    [hasError = true], and no plugin code ran (the plugin world is as it
    was and the trace has no new invocation). *)
Theorem spawn_contains_rejected_source (i : PluginId) (r : Ref) st :
  pluginProcesses st !! i = None →
  (getPluginFromLibrary (Some i) st).1 = Ok (Some r) →
  makePluginFn (code (heap st r)) = None →
  let st' := (spawn i st).2 in
  (spawn i st).1 = Ok None ∧
  pluginProcesses st' !! i = None ∧
  pluginProcessInfos st' !! i = Some {| rendered := false; hasError := true |} ∧
  world st' = world st ∧
  trace st' = trace st ++ [EvCompile i (code (heap st r));
                           EvConsole "failed to start plugin"].
Proof.
  intros Hp Hf Hfn. rewrite (spawn_starts _ _ _ Hp Hf). cbv zeta.
  rewrite Hfn. unfold start_failed. simpl. rewrite Hp, lookup_insert_eq.
  by rewrite <- app_assoc.
Qed.

(** X8.  A start replaces whatever record [i] had: after [spawn] of a
    definition that is not running, the record reads [rendered = false], and
    [hasError] is true exactly when this start failed (the source was
    rejected or its run raised).  An error recorded by an earlier start does
    not survive a start that succeeds. *)
Theorem spawn_record_reflects_latest_start (i : PluginId) (r : Ref) st :
  pluginProcesses st !! i = None →
  (getPluginFromLibrary (Some i) st).1 = Ok (Some r) →
  pluginProcessInfos (spawn i st).2 !! i =
    Some {| rendered := false; hasError := start_fails r st |}.
Proof. intros Hp Hf. by apply spawn_starts_maps. Qed.

(** X9.  [render] starts a plugin that is not running: when its definition
    is in the library and the run of its source hands [register] an instance
    [p] with a [render] member first, the same [render] call registers [p]
    and calls that member once, whether or not the run raised afterwards;
    [rendered] is true afterwards exactly when the member returned. *)
Theorem render_starts_plugin_on_demand (i : PluginId) (element : HTMLDivElement)
    (r : Ref) (p : PluginProcess W) (f : HTMLDivElement → W → Outcome * W) st :
  pluginProcesses st !! i = None →
  (getPluginFromLibrary (Some i) st).1 = Ok (Some r) →
  head (start_registers r st) = Some p →
  process_render p = Some f →
  let st1 := (spawn i st).2 in
  let st2 := (render i element st).2 in
  (render i element st).1 = Ok tt ∧
  pluginProcesses st2 !! i = Some p ∧
  renders_of i (trace st2) = renders_of i (trace st) ++ [EvRender i element] ∧
  rendered <$> pluginProcessInfos st2 !! i =
    Some (match (f element (world st1)).1 with Returns => true | Raises => false end).
Proof.
  intros Hp Hf Hhead Hrender.
  destruct (spawn_starts_maps i r st Hp Hf) as [Hp1 Hi1]. rewrite Hhead in Hp1.
  destruct (spawn_effect i st) as (_ & _ & _ & _ & _ & Hrs).
  rewrite render_eq. cbv zeta in *. rewrite Hp1, Hi1, Hrender. simpl.
  destruct (f element (world (spawn i st).2)) as [[] w']; simpl;
    rewrite !renders_of_app, Hrs; simpl; rewrite String.eqb_refl; simpl;
    rewrite ?app_nil_r, lookup_alter_eq, Hi1; by repeat split.
Qed.

(** X14.  [destroy i] followed by [spawn i] starts the plugin again from
    the definition in the library: the source found there is compiled, and
    invoked when it compiled, and the record of [i] is a new one with
    [rendered = false], whatever state [i] was in before. *)
Theorem destroy_then_spawn_restarts (i : PluginId) (r : Ref) st :
  (getPluginFromLibrary (Some i) st).1 = Ok (Some r) →
  let st1 := (destroy i st).2 in
  let st2 := (spawn i st1).2 in
  (∃ rest,
     trace st2 = trace st1 ++ EvCompile i (code (heap st r)) :: rest ∧
     (is_Some (makePluginFn (code (heap st r))) →
        ∃ rest', rest = EvInvoke i (code (heap st r)) :: rest')) ∧
  rendered <$> pluginProcessInfos st2 !! i = Some false.
Proof.
  intros Hf. destruct (destroy_effect i st) as ((_ & _ & Hl & Hh & _) & Hp & _).
  cbv zeta in *.
  assert (Hgone : pluginProcesses (destroy i st).2 !! i = None).
  { rewrite Hp. apply lookup_delete_eq. }
  assert (Hf1 : (getPluginFromLibrary (Some i) (destroy i st).2).1 = Ok (Some r)).
  { rewrite getPluginFromLibrary_eq in *. simpl in *. by rewrite Hl, Hh. }
  destruct (spawn_starts_trace i r _ Hgone Hf1) as (rest & Htr & Hinv).
  destruct (spawn_starts_maps i r _ Hgone Hf1) as [_ Hi].
  rewrite Hh in Htr, Hinv. split; [by exists rest|]. by rewrite Hi.
Qed.
(** X1.  In a reachable state, when no definition of the library already
    has the id [uuidv4] is about to return, [addPluginToLibrary name code]
    returns an object with that id, the given name and code and
    [enabled = true], and [getPluginFromLibrary] of the returned id finds the
    definition that was added: another object than the one returned, with the
    same fields. *)
Theorem addPluginToLibrary_then_getPluginFromLibrary (name code : string) st :
  reachable st →
  (∀ r, In r (pluginLibrary st) → id (heap st r) ≠ uuidv4 (uuids st)) →
  let st' := (addPluginToLibrary name code st).2 in
  ∃ returned found,
    (addPluginToLibrary name code st).1 = Ok returned ∧
    heap st' returned = {| id := uuidv4 (uuids st); name := name; code := code;
                           lastEdited := Date_getTime (ticks st); enabled := true |} ∧
    (getPluginFromLibrary (Some (id (heap st' returned))) st').1 = Ok (Some found) ∧
    heap st' found = heap st' returned ∧ found ≠ returned.
Proof.
  intros Hreach Hfresh. apply reachable_invariants in Hreach as [_ Ha].
  destruct (addPluginToLibrary_effect name code st)
    as (Hres & _ & _ & _ & _ & _ & Hl & _ & Hnew & Hcopy & Hold & _).
  cbv zeta in *. exists (S (heapNext st)), (heapNext st).
  split; [exact Hres|]. split; [exact Hcopy|]. split; [|split; [|lia]].
  - rewrite getPluginFromLibrary_eq. cbn [fst]. rewrite Hl, Hcopy. cbn [id].
    rewrite find_app_skip.
    + cbn [List.find]. rewrite Hnew. cbn [id]. by rewrite String.eqb_refl.
    + intros r Hr. rewrite Hold by (by apply library_allocated_In).
      apply String.eqb_neq. by apply Hfresh.
  - by rewrite Hnew, Hcopy.
Qed.

(** X2.  In a reachable state [addPluginToLibrary] puts the new definition
    at the end of the library, leaves the definitions before it as they
    were, and saves the library as it then is.  The object it returns is not
    an object of the library: an assignment to it by the caller does not show
    in what [getLibrary] returns. *)
Theorem addPluginToLibrary_appends_and_returns_copy (name code : string)
    (f : SerializedPlugin → SerializedPlugin) st :
  reachable st →
  let st' := (addPluginToLibrary name code st).2 in
  contents st' (pluginLibrary st') =
    contents st (pluginLibrary st) ++ [newPlugin name code st] ∧
  gameManager st' = contents st' (pluginLibrary st') ∧
  ∀ returned, (addPluginToLibrary name code st).1 = Ok returned →
    ¬ In returned (pluginLibrary st') ∧
    getLibrary_contents (write returned f st').2 = getLibrary_contents st'.
Proof.
  intros Hreach. apply reachable_invariants in Hreach as [_ Ha].
  destruct (addPluginToLibrary_effect name code st)
    as (Hres & _ & _ & _ & _ & _ & Hl & Hn & _ & _ & _ & _ & Hsave).
  cbv zeta in *. destruct (Hsave Ha) as (Hg & Hc & Ha').
  split; [by rewrite Hc, Hg|]. split; [by rewrite Hc|].
  intros returned Hret. rewrite Hres in Hret. injection Hret as <-.
  assert (Hout : ¬ In (S (heapNext st)) (pluginLibrary (addPluginToLibrary name code st).2)).
  { rewrite Hl. intros Hin. apply List.in_app_or in Hin as [Hin|[Hin|[]]]; [|lia].
    apply (library_allocated_In _ _ Ha) in Hin. lia. }
  split; [exact Hout|].
  set (st' := (addPluginToLibrary name code st).2) in *.
  assert (Ha'' : library_allocated (write (S (heapNext st)) f st').2) by exact Ha'.
  destruct (getLibrary_copies _ Ha') as (_ & -> & _).
  destruct (getLibrary_copies _ Ha'') as (_ & -> & _).
  f_equal. apply contents_same. intros x Hx. simpl.
  destruct (Nat.eqb_spec x (S (heapNext st))) as [->|]; [done|done].
Qed.

(** X3.  In a reachable state [getLibrary] returns normally one new object
    per definition, in library order and with the same fields; it changes
    nothing but the heap it allocates them in, the objects of the library
    keep their fields, and an assignment by the caller to any returned object
    does not show in a later [getLibrary]. *)
Theorem getLibrary_returns_isolated_copies st :
  reachable st →
  ∃ refs,
    (getLibrary st).1 = Ok refs ∧
    contents (getLibrary st).2 refs = contents st (pluginLibrary st) ∧
    same_but_heap st (getLibrary st).2 ∧
    contents (getLibrary st).2 (pluginLibrary st) = contents st (pluginLibrary st) ∧
    (∀ r, In r refs → ¬ In r (pluginLibrary st)) ∧
    (∀ r f, In r refs →
       getLibrary_contents (write r f (getLibrary st).2).2 = getLibrary_contents st).
Proof.
  intros Hreach. apply reachable_invariants in Hreach as [_ Ha].
  destruct (getLibrary_copies st Ha) as (Hres & Hview & _ & Hc & _).
  exists (seq (heapNext st) (length (pluginLibrary st))).
  split; [exact Hres|].
  assert (Hcopy : contents (getLibrary st).2 (seq (heapNext st) (length (pluginLibrary st)))
                  = contents st (pluginLibrary st) ∧ same_but_heap st (getLibrary st).2).
  { unfold getLibrary. unfold_M.
    destruct (copy_objects_effect (pluginLibrary st) st) as (_ & _ & _ & Hcs & Hs).
    { intros r. by apply library_allocated_In. }
    cbv zeta in *. by destruct (copy_objects (pluginLibrary st) st) as [[] ?]. }
  destruct Hcopy as [Hcs Hs].
  split; [exact Hcs|]. split; [exact Hs|]. split; [exact Hc|]. split.
  - intros r Hr Hin. apply List.in_seq in Hr.
    apply (library_allocated_In _ _ Ha) in Hin. lia.
  - intros r f Hr. by apply (getLibrary_isolated r f st Ha _ Hres).
Qed.






Lemma addPluginToLibrary_plugin_calls (name code : string) st :
  plugin_calls (trace (addPluginToLibrary name code st).2) = plugin_calls (trace st).
Proof.
  unfold addPluginToLibrary, copy_object, savePlugins, alloc, new_Date_getTime,
    call_uuidv4. unfold_M. simpl. rewrite plugin_calls_app. simpl.
  by rewrite app_nil_r.
Qed.

Local Opaque addPluginToLibrary alloc_all.

Lemma load_plugin_calls st :
  plugin_calls (trace (load st).2) = plugin_calls (trace st).
Proof.
  unfold load, getUIDataItem_hasAddedDefaultPlugins,
    setUIDataItem_hasAddedDefaultPlugins, loadPlugins. unfold_M. simpl.
  assert (Halloc : ∀ t, trace (alloc_all (gameManager t) t).2 = trace t).
  { intros t. by destruct (alloc_all_effect (gameManager t) t)
      as (_ & _ & _ & _ & _ & _ & _ & _ & _ & _ & _ & Ht). }
  destruct (uiManager st); simpl.
  - specialize (Halloc st). destruct (alloc_all (gameManager st) st) as [[] ?];
      simpl in *; by rewrite Halloc.
  - pose proof (addPluginToLibrary_plugin_calls "README" README_PLUGIN
                  (set_uiManager true st)) as H1.
    destruct (addPluginToLibrary "README" README_PLUGIN (set_uiManager true st))
      as [[r1|e1] st1]; simpl in *; [|done].
    pose proof (addPluginToLibrary_plugin_calls "Artifacts Finder"
                  ARTIFACT_FINDER_PLUGIN st1) as H2.
    destruct (addPluginToLibrary "Artifacts Finder" ARTIFACT_FINDER_PLUGIN st1)
      as [[r2|e2] st2]; simpl in *; [|congruence].
    specialize (Halloc st2). destruct (alloc_all (gameManager st2) st2) as [[] ?];
      simpl in *; rewrite Halloc; congruence.
Qed.

Local Transparent addPluginToLibrary alloc_all.

(** X12.  Loading the library and adding a definition never run a plugin:
    [load] and [addPluginToLibrary] leave the registry, the book-keeping and
    the plugin world as they were, and add no compilation, invocation,
    [render] call or [destroy] call to the trace; only saves are added. *)
Theorem load_and_add_never_run_plugins (name code : string) st :
  (same_processes st (load st).2 ∧ world (load st).2 = world st ∧
   plugin_calls (trace (load st).2) = plugin_calls (trace st)) ∧
  (same_processes st (addPluginToLibrary name code st).2 ∧
   world (addPluginToLibrary name code st).2 = world st ∧
   plugin_calls (trace (addPluginToLibrary name code st).2) = plugin_calls (trace st)).
Proof.
  destruct (load_effect st) as (_ & Hp & Hw & _).
  destruct (addPluginToLibrary_effect name code st) as (_ & Hp' & Hw' & _).
  split; (split; [done|split; [done|]]).
  - apply load_plugin_calls.
  - apply addPluginToLibrary_plugin_calls.
Qed.

Lemma spawn_rendered_has_process (i : PluginId) st :
  rendered_has_process st → rendered_has_process (spawn i st).2.
Proof.
  intros HR. destruct (spawn_effect i st) as (_ & Hel & _ & Hlive & _).
  cbv zeta in *. intros j info Hj Hr.
  destruct (decide (j = i)) as [->|Hne].
  2:{ destruct (Hel j Hne) as [Hp Hi]. rewrite Hp. rewrite Hi in Hj. by apply (HR j info). }
  destruct (pluginProcesses st !! i) as [p|] eqn:Hp.
  { rewrite Hlive in * by (by eexists). by apply (HR i info). }
  destruct (getPluginFromLibrary (Some i) st).1 as [[r|]|e] eqn:Hf.
  - destruct (spawn_starts_maps i r st Hp Hf) as [_ Hi]. rewrite Hi in Hj.
    injection Hj as <-. done.
  - rewrite (spawn_unknown _ _ Hp Hf) in *. simpl in *.
    destruct (HR i info Hj Hr) as [? ?]. congruence.
  - by rewrite getPluginFromLibrary_eq in Hf.
Qed.

Lemma perform_rendered_has_process (op : Op) st :
  rendered_has_process st → rendered_has_process (perform op st).2.
Proof.
  intros HR.
  assert (Hsame : ∀ st', same_processes st st' → rendered_has_process st').
  { intros st' [Hp Hi] j info. rewrite Hp, Hi. apply HR. }
  assert (Htorn : ∀ i st',
            pluginProcesses st' = delete i (pluginProcesses st) →
            pluginProcessInfos st' =
              match pluginProcesses st !! i with
              | Some _ => delete i (pluginProcessInfos st)
              | None => pluginProcessInfos st
              end → rendered_has_process st').
  { intros i st' Hp Hi j info. rewrite Hp, Hi. intros Hj Hr.
    destruct (decide (j = i)) as [->|Hne].
    - destruct (pluginProcesses st !! i) eqn:Hlive.
      + by rewrite lookup_delete_eq in Hj.
      + destruct (HR i info Hj Hr) as [? ?]. congruence.
    - rewrite lookup_delete_ne by done. apply (HR j info); [|done].
      destruct (pluginProcesses st !! i); [|done]. by rewrite lookup_delete_ne in Hj. }
  destruct op as [|n c|n c i|i|i|i e|i].
  - change (perform Load st) with (load st). by apply Hsame, load_effect.
  - rewrite perform_add. by apply Hsame, addPluginToLibrary_effect.
  - destruct (overwritePlugin_effect n c i st) as (Hp & Hi & _). by apply (Htorn i).
  - destruct (deletePlugin_effect i st) as (Hp & Hi & _). by apply (Htorn i).
  - rewrite perform_spawn. by apply spawn_rendered_has_process.
  - change (perform (Render i e) st) with (render i e st).
    pose proof (spawn_rendered_has_process i st HR) as HR1.
    rewrite render_eq. cbv zeta. set (st1 := (spawn i st).2) in *.
    destruct (pluginProcesses st1 !! i) as [p|] eqn:Hp; [|done].
    destruct (pluginProcessInfos st1 !! i) as [info|] eqn:Hi; [|done].
    destruct (process_render p) as [f|]; [|done].
    destruct (rendered info); [done|].
    assert (Halter : ∀ g j x, alter g i (pluginProcessInfos st1) !! j = Some x →
              rendered x = true → is_Some (pluginProcesses st1 !! j)).
    { intros g j x Hj Hr. destruct (decide (j = i)) as [->|Hne].
      - rewrite Hp. by eexists.
      - rewrite lookup_alter_ne in Hj by done. by apply (HR1 j x). }
    destruct (f e (world st1)) as [[] w']; simpl; intros j x Hj Hr; simpl in *;
      by eapply Halter.
  - destruct (destroy_effect i st) as (_ & Hp & Hi & _). by apply (Htorn i).
Qed.

(** X16.  In every reachable state a record that reads [rendered = true]
    belongs to a process that is registered: [rendered] is never true for a
    plugin that is not running. *)
Theorem rendered_record_has_live_process (i : PluginId) (info : ProcessInfo) st :
  reachable st →
  pluginProcessInfos st !! i = Some info → rendered info = true →
  is_Some (pluginProcesses st !! i).
Proof.
  intros (saved & flag & w & ops & ->). revert i info.
  induction ops as [|op ops IH] using rev_ind.
  - intros i info Hi. simpl in Hi. by rewrite lookup_empty in Hi.
  - rewrite after_snoc. by apply perform_rendered_has_process.
Qed.

(** X20.  [render i] touches the registry and the book-keeping at [i]
    only, and neither the library, nor its objects, nor what is saved; the
    registry it leaves is the one its [spawn] left. *)
Theorem render_is_local (i : PluginId) (element : HTMLDivElement) st :
  let st' := (render i element st).2 in
  same_elsewhere i st st' ∧ same_store st st' ∧
  pluginProcesses st' = pluginProcesses (spawn i st).2.
Proof.
  destruct (render_effect i element st) as (Hs & Hel & _ & Hp & _).
  cbv zeta. split; [exact Hel|]. split; [exact Hs|exact Hp].
Qed.
End Further.

(** ** Ids of the library *)

Section Identities.
Context `{H : Host}.

Hypothesis uuidv4_never_repeats : ∀ m n, uuidv4 m = uuidv4 n → m = n.

Lemma issued_snoc (u : nat) (ids : list PluginId) :
  issued u ids → issued (S u) (ids ++ [uuidv4 u]).
Proof.
  intros [Hnd Hb]. split.
  - apply List.NoDup_app; [done|repeat constructor; by intros []|].
    intros x Hx [<-|[]]. destruct (Hb _ Hx) as (k & Hk & Heq).
    apply uuidv4_never_repeats in Heq. lia.
  - intros x Hx. apply List.in_app_or in Hx as [Hx|[<-|[]]].
    + destruct (Hb _ Hx) as (k & Hk & ->). exists k. split; [lia|done].
    + exists u. split; [lia|done].
Qed.

Lemma issued_filter (u : nat) (g : PluginId → bool) (ids : list PluginId) :
  issued u ids → issued u (List.filter g ids).
Proof.
  intros [Hnd Hb]. split; [by apply List.NoDup_filter|].
  intros x Hx. apply List.filter_In in Hx as [Hx _]. by apply Hb.
Qed.

Local Opaque addPluginToLibrary alloc_all destroy.

Lemma load_uuids st :
  uuids (load st).2 = if uiManager st then uuids st else S (S (uuids st)).
Proof.
  unfold load, getUIDataItem_hasAddedDefaultPlugins,
    setUIDataItem_hasAddedDefaultPlugins, loadPlugins. unfold_M. simpl.
  assert (Halloc : ∀ t, uuids (alloc_all (gameManager t) t).2 = uuids t).
  { intros t. by destruct (alloc_all_effect (gameManager t) t)
      as (_ & _ & _ & _ & _ & _ & _ & _ & _ & Hu & _). }
  destruct (uiManager st); simpl.
  - specialize (Halloc st). by destruct (alloc_all (gameManager st) st) as [[] ?].
  - destruct (addPluginToLibrary_effect "README" README_PLUGIN (set_uiManager true st))
      as (Hok1 & _ & _ & _ & H1 & _). cbv zeta in H1.
    destruct (addPluginToLibrary "README" README_PLUGIN (set_uiManager true st))
      as [[r1|e1] st1]; simpl in *; [|done].
    destruct (addPluginToLibrary_effect "Artifacts Finder" ARTIFACT_FINDER_PLUGIN st1)
      as (Hok2 & _ & _ & _ & H2 & _). cbv zeta in H2.
    destruct (addPluginToLibrary "Artifacts Finder" ARTIFACT_FINDER_PLUGIN st1)
      as [[r2|e2] st2]; simpl in *; [|done].
    specialize (Halloc st2). destruct (alloc_all (gameManager st2) st2) as [[] ?];
      simpl in *; congruence.
Qed.

Lemma deletePlugin_uuids (i : PluginId) st : uuids (deletePlugin i st).2 = uuids st.
Proof.
  unfold deletePlugin, savePlugins. unfold_M. simpl.
  match goal with |- context [destroy i ?t] =>
    destruct (destroy_effect i t) as ((_ & _ & _ & _ & _ & Hu & _) & _) end.
  cbv zeta in *. by destruct (destroy i _) as [[[]|e] st2].
Qed.

Lemma overwritePlugin_uuids (newName pluginCode : string) (i : PluginId) st :
  uuids (overwritePlugin newName pluginCode i st).2 = uuids st.
Proof.
  unfold overwritePlugin, savePlugins, write, new_Date_getTime, getPluginFromLibrary.
  unfold_M.
  destruct (destroy_effect i st) as ((_ & _ & _ & _ & _ & Hu & _) & _).
  cbv zeta in *.
  destruct (destroy i st) as [[[]|e] st1]; simpl in *; [|done].
  by destruct (List.find _ _).
Qed.

Local Transparent addPluginToLibrary alloc_all destroy.

Lemma perform_ids_issued (op : Op) st :
  registry_has_info st → library_allocated st →
  ids_issued st → ids_issued (perform op st).2.
Proof.
  intros Hinv Ha [Hlib Hsaved]. unfold ids_issued.
  assert (Hsame : ∀ st', same_store st st' → ids_issued st').
  { intros st' (Hg & _ & Hl & Hh & _ & Hu & _). unfold ids_issued, contents.
    by rewrite Hg, Hl, Hh, Hu. }
  destruct op as [|n c|n c i|i|i|i e|i].
  - change (perform Load st) with (load st).
    destruct (load_effect st) as (_ & _ & _ & _ & _ & Hc & Hset & Hunset & _).
    pose proof (load_uuids st) as Hu. cbv zeta in *. rewrite Hc, Hu.
    destruct (uiManager st).
    + rewrite Hset by done. by split.
    + rewrite (Hunset eq_refl Ha). unfold ids_of, defaultPlugins.
      rewrite map_app. simpl.
      assert (Htwo : issued (S (S (uuids st)))
                (map id (contents st (pluginLibrary st))
                 ++ [uuidv4 (uuids st); uuidv4 (S (uuids st))])).
      { change [uuidv4 (uuids st); uuidv4 (S (uuids st))]
          with ([uuidv4 (uuids st)] ++ [uuidv4 (S (uuids st))]).
        rewrite app_assoc. by apply issued_snoc, issued_snoc. }
      by split.
  - rewrite perform_add.
    destruct (addPluginToLibrary_effect n c st)
      as (_ & _ & _ & _ & Hu & _ & _ & _ & _ & _ & _ & _ & Hsave).
    destruct (Hsave Ha) as (Hg & Hc & _). cbv zeta in *. rewrite Hc, Hg, Hu.
    unfold ids_of. rewrite map_app. simpl.
    split; by apply issued_snoc.
  - change (perform (OverwritePlugin n c i) st) with (overwritePlugin n c i st).
    destruct (overwritePlugin_effect n c i st) as (_ & _ & Hl & _ & _ & Hid & _ & Hedit).
    pose proof (overwritePlugin_uuids n c i st) as Hu.
    destruct (Hedit Hinv) as [_ Hcase]. cbv zeta in *. rewrite Hu.
    assert (Hids : ids_of (contents (overwritePlugin n c i st).2
                                    (pluginLibrary (overwritePlugin n c i st).2))
                   = ids_of (contents st (pluginLibrary st))).
    { unfold ids_of, contents. rewrite Hl, !List.map_map.
      apply List.map_ext. intros r. apply Hid. }
    rewrite Hids. split; [done|].
    destruct (getPluginFromLibrary (Some i) st).1 as [[r|]|e].
    + destruct Hcase as (_ & _ & ->). by rewrite Hids.
    + destruct Hcase as (_ & -> & _). done.
    + destruct Hcase as (_ & -> & _). done.
  - change (perform (DeletePlugin i) st) with (deletePlugin i st).
    destruct (deletePlugin_effect i st) as (_ & _ & Hl & Hh & _ & _ & _ & Hsave).
    pose proof (deletePlugin_uuids i st) as Hu.
    destruct (Hsave Hinv) as [_ Hg]. cbv zeta in *. rewrite Hg, Hu.
    assert (Hids : ids_of (contents (deletePlugin i st).2 (pluginLibrary (deletePlugin i st).2))
                   = List.filter (λ x, negb (String.eqb x i))
                       (ids_of (contents st (pluginLibrary st)))).
    { unfold ids_of, contents. rewrite Hl, Hh, List.map_map.
      rewrite (map_filter_comm (λ r, id (heap st r)) (λ x, negb (String.eqb x i))).
      by rewrite List.map_map. }
    rewrite Hids. split; by apply issued_filter.
  - rewrite perform_spawn. by apply Hsame, spawn_effect.
  - by apply Hsame, render_effect.
  - by apply Hsame, destroy_effect.
Qed.

(** X19.  When [uuidv4] never returns the same value twice, a manager that
    started with nothing saved never has two definitions with the same id in
    its library, whatever sequence of public methods was called. *)
Theorem library_ids_are_unique (flag : bool) (w : W) (ops : list Op) :
  let st := after ops (new_PluginManager [] flag w) in
  List.NoDup (ids_of (contents st (pluginLibrary st))).
Proof.
  cbv zeta.
  assert (Hall : ids_issued (after ops (new_PluginManager [] flag w))).
  { induction ops as [|op ops IH] using rev_ind.
    - split; (split; [constructor|by intros x []]).
    - rewrite after_snoc.
      assert (Hr : reachable (after ops (new_PluginManager [] flag w))).
      { by exists [], flag, w, ops. }
      apply reachable_invariants in Hr as [Hinv Ha].
      by apply perform_ids_issued. }
  by destruct Hall as [[Hnd _] _].
Qed.
End Identities.

(** X17.  [copy] of a plugin definition, and of a book-keeping record,
    returns an object with the same fields: nothing is lost or changed by the
    passage through JSON. *)
Theorem copy_returns_equal_object :
  (∀ p : SerializedPlugin, copy (Some p) = Ok p) ∧
  (∀ info : ProcessInfo, copy (Some info) = Ok info).
Proof. split; [by intros []|by intros []]. Qed.

(** * The claims on the concrete host *)

#[local] Existing Instance Demo.host.

Lemma spawn_returns_running_instance_witness :
  pluginProcesses Demo.running !! "a" = Some Demo.widget ∧
  spawn "a" Demo.running = (Ok (Some Demo.widget), Demo.running) ∧
  spawn "a" (spawn "a" Demo.running).2 = (Ok (Some Demo.widget), Demo.running) ∧
  runs_of (trace (spawn "a" (spawn "a" Demo.running).2).2) =
    runs_of (trace Demo.running) ∧
  (spawn "a" Demo.defined_widget).1 = Ok (Some Demo.widget) ∧
  (length (invokes_of (trace (spawn "a" Demo.running).2))
   ≤ S (length (invokes_of (trace Demo.defined_widget))))%nat.
Proof.
  split; [reflexivity|].
  destruct (spawn_returns_running_instance (H := Demo.host) "a" Demo.widget
              Demo.running eq_refl) as (Hsame & Hagain & Hruns & Hfirst).
  split; [exact Hsame|]. split; [exact Hagain|]. split; [exact Hruns|].
  apply (Hfirst Demo.defined_widget).
  change Demo.running with (perform (Spawn "a") Demo.defined_widget).2.
  apply (perform_spawn (H := Demo.host)).
Defined.


Lemma spawn_contains_start_failure_witness :
  pluginProcesses Demo.unstarted !! "a" = None ∧
  (getPluginFromLibrary (Some "a") Demo.unstarted).1 = Ok (Some 0) ∧
  (spawn "a" Demo.unstarted).1 = Ok (Some Demo.broken) ∧
  pluginProcesses (spawn "a" Demo.unstarted).2 !! "a" = Some Demo.broken ∧
  pluginProcessInfos (spawn "a" Demo.unstarted).2 !! "a" =
    Some {| rendered := false; hasError := true |}.
Proof.
  split; [reflexivity|]. split; [reflexivity|].
  destruct (spawn_contains_start_failure (H := Demo.host) "a" 0
              (λ w, ([Demo.broken; Demo.widget], Raises, S w)) Demo.unstarted
              eq_refl eq_refl eq_refl eq_refl) as (Hres & Hp & Hi & _).
  split; [exact Hres|]. split; [exact Hp|exact Hi].
Defined.

Lemma render_once_per_success_witness :
  pluginProcesses Demo.unrendered !! "a" = Some Demo.flaky ∧
  pluginProcessInfos Demo.unrendered !! "a" = Some new_ProcessInfo ∧
  (render "a" 7 Demo.unrendered).1 = Ok tt ∧
  renders_of "a" (trace (render "a" 7 Demo.unrendered).2) = [EvRender "a" 7] ∧
  pluginProcessInfos (render "a" 7 Demo.unrendered).2 !! "a" =
    Some {| rendered := false; hasError := true |} ∧
  renders_of "a" (trace (render "a" 8 (render "a" 7 Demo.unrendered).2).2) =
    [EvRender "a" 7; EvRender "a" 8].
Proof.
  split; [reflexivity|]. split; [reflexivity|].
  destruct (render_once_per_success (H := Demo.host) "a" 7 Demo.unrendered)
    as (Hok & _ & _ & Hcall).
  destruct (Hcall Demo.flaky (λ _ w, (if Nat.leb 2 w then Returns else Raises, S w))
              new_ProcessInfo)
    as (Htrace & _ & Hinfo & _ & Hagain).
  { repeat split; reflexivity. }
  split; [exact Hok|]. split; [rewrite Htrace; reflexivity|].
  split; [exact Hinfo|]. rewrite (Hagain 8), Htrace. reflexivity.
Defined.




Lemma load_seeds_defaults_once_witness :
  reachable Demo.fresh ∧ uiManager Demo.fresh = false ∧
  (load Demo.fresh).1 = Ok tt ∧
  contents (load Demo.fresh).2 (pluginLibrary (load Demo.fresh).2) =
    [ {| id := "a"; name := "README"; code := "// readme";
         lastEdited := 1600000000000; enabled := true |};
      {| id := "b"; name := "Artifacts Finder"; code := "// artifacts finder";
         lastEdited := 1600000000001; enabled := true |} ] ∧
  gameManager (load Demo.fresh).2 =
    contents (load Demo.fresh).2 (pluginLibrary (load Demo.fresh).2) ∧
  contents (load (load Demo.fresh).2).2 (pluginLibrary (load (load Demo.fresh).2).2) =
    contents (load Demo.fresh).2 (pluginLibrary (load Demo.fresh).2).
Proof.
  assert (Hr : reachable Demo.fresh) by (by exists [], false, 0, []).
  destruct (load_seeds_defaults_once (H := Demo.host) Demo.fresh Hr eq_refl)
    as (Hok & _ & _ & Hseed & Hsaved & _ & _ & Hsame & _).
  split; [exact Hr|]. split; [reflexivity|]. split; [exact Hok|].
  split; [exact (Hseed eq_refl)|]. split; [exact Hsaved|exact Hsame].
Defined.


(** C7, at the failing input.  A plugin whose source throws before it
    registers anything is started and then deleted: [deletePlugin] returns
    normally, the library is empty and the registry has no entry for the id,
    but the book-keeping record [spawn] created is still there, and the id is
    still a key of what [getAllProcessInfos] returns. *)
Theorem deletePlugin_leaves_record_of_failed_start :
  let st' := (deletePlugin "a" Demo.failed).2 in
  (deletePlugin "a" Demo.failed).1 = Ok tt ∧
  contents st' (pluginLibrary st') = [] ∧
  pluginProcesses st' !! "a" = None ∧
  pluginProcessInfos st' !! "a" = Some {| rendered := false; hasError := true |} ∧
  ∃ m, (getAllProcessInfos st').1 = Ok m ∧
       m !! "a" = Some {| rendered := false; hasError := true |}.
Proof.
  cbv zeta. split; [reflexivity|]. split; [reflexivity|]. split; [reflexivity|].
  split; [reflexivity|]. rewrite (getAllProcessInfos_eq (H := Demo.host)).
  eexists. split; reflexivity.
Qed.

(** C8, at the failing input.  [getPluginFromLibrary] returns the object
    that is in the library array, not a copy: an assignment to its [name] by
    the caller shows in what the next [getLibrary] returns. *)
Theorem getPluginFromLibrary_returns_library_object :
  let rename (p : SerializedPlugin) :=
    {| id := id p; name := "renamed by the caller"; code := code p;
       lastEdited := lastEdited p; enabled := enabled p |} in
  ∃ r,
    (getPluginFromLibrary (Some "a") Demo.defined).1 = Ok (Some r) ∧
    In r (pluginLibrary Demo.defined) ∧
    getLibrary_contents Demo.defined =
      Ok [ {| id := "a"; name := "X"; code := "// x";
              lastEdited := 1600000000000; enabled := true |} ] ∧
    getLibrary_contents (write r rename Demo.defined).2 =
      Ok [ {| id := "a"; name := "renamed by the caller"; code := "// x";
              lastEdited := 1600000000000; enabled := true |} ].
Proof.
  cbv zeta. exists 0. split; [reflexivity|]. split; [by left|].
  split; reflexivity.
Qed.

(** * The further properties on the concrete host *)

Lemma unary_never_repeats (m n : nat) : unary m = unary n → m = n.
Proof.
  revert n. induction m as [|m IH]; intros [|n] Heq; try done.
  simpl in Heq. injection Heq as Heq. f_equal. by apply IH.
Qed.

Lemma library_ids_are_unique_witness :
  (∀ m n, unary m = unary n → m = n) ∧
  List.NoDup (ids_of (contents
    (after (H := unary_host) [Load; AddPluginToLibrary "X" "// x"; DeletePlugin "u"]
       (new_PluginManager (H := unary_host) [] false 0))
    (pluginLibrary
       (after (H := unary_host) [Load; AddPluginToLibrary "X" "// x"; DeletePlugin "u"]
          (new_PluginManager (H := unary_host) [] false 0))))).
Proof.
  split; [exact unary_never_repeats|].
  exact (library_ids_are_unique (H := unary_host) unary_never_repeats false 0
           [Load; AddPluginToLibrary "X" "// x"; DeletePlugin "u"]).
Defined.

Lemma reachable_demo (ops : list Op) : reachable (after ops Demo.fresh).
Proof. by exists [], false, 0, ops. Qed.

Ltac by_running := vm_compute; reflexivity.


Lemma spawn_contains_rejected_source_witness :
  pluginProcesses (after [AddPluginToLibrary "X" "}"] Demo.fresh) !! "a" = None ∧
  (getPluginFromLibrary (Some "a") (after [AddPluginToLibrary "X" "}"] Demo.fresh)).1 =
    Ok (Some 0) ∧
  makePluginFn (code (heap (after [AddPluginToLibrary "X" "}"] Demo.fresh) 0)) = None ∧
  (spawn "a" (after [AddPluginToLibrary "X" "}"] Demo.fresh)).1 = Ok None ∧
  pluginProcessInfos (spawn "a" (after [AddPluginToLibrary "X" "}"] Demo.fresh)).2 !! "a" =
    Some {| rendered := false; hasError := true |} ∧
  world (spawn "a" (after [AddPluginToLibrary "X" "}"] Demo.fresh)).2 =
    world (after [AddPluginToLibrary "X" "}"] Demo.fresh).
Proof.
  set (st := after [AddPluginToLibrary "X" "}"] Demo.fresh).
  assert (Hp : pluginProcesses st !! "a" = None) by by_running.
  assert (Hf : (getPluginFromLibrary (Some "a") st).1 = Ok (Some 0)) by by_running.
  assert (Hc : makePluginFn (code (heap st 0)) = None) by by_running.
  destruct (spawn_contains_rejected_source (H := Demo.host) "a" 0 st Hp Hf Hc)
    as (Hres & _ & Hi & Hw & _).
  split; [exact Hp|]. split; [exact Hf|]. split; [exact Hc|].
  split; [exact Hres|]. split; [exact Hi|exact Hw].
Defined.

Lemma spawn_record_reflects_latest_start_witness :
  pluginProcesses
    (after [OverwritePlugin "X" "plugin.register(widget)" "a"] Demo.failed) !! "a" = None ∧
  (getPluginFromLibrary (Some "a")
     (after [OverwritePlugin "X" "plugin.register(widget)" "a"] Demo.failed)).1 =
    Ok (Some 0) ∧
  pluginProcessInfos
    (after [OverwritePlugin "X" "plugin.register(widget)" "a"] Demo.failed) !! "a" =
    Some {| rendered := false; hasError := true |} ∧
  pluginProcessInfos
    (spawn "a" (after [OverwritePlugin "X" "plugin.register(widget)" "a"] Demo.failed)).2
    !! "a" = Some {| rendered := false; hasError := false |}.
Proof.
  set (st := after [OverwritePlugin "X" "plugin.register(widget)" "a"] Demo.failed).
  assert (Hp : pluginProcesses st !! "a" = None) by by_running.
  assert (Hf : (getPluginFromLibrary (Some "a") st).1 = Ok (Some 0)) by by_running.
  assert (Hold : pluginProcessInfos st !! "a" =
                 Some {| rendered := false; hasError := true |}) by by_running.
  assert (Hok : start_fails 0 st = false) by by_running.
  pose proof (spawn_record_reflects_latest_start (H := Demo.host) "a" 0 st Hp Hf) as Hnew.
  rewrite Hok in Hnew.
  split; [exact Hp|]. split; [exact Hf|]. split; [exact Hold|exact Hnew].
Defined.

Lemma render_starts_plugin_on_demand_witness :
  pluginProcesses Demo.defined_widget !! "a" = None ∧
  (getPluginFromLibrary (Some "a") Demo.defined_widget).1 = Ok (Some 0) ∧
  head (start_registers 0 Demo.defined_widget) = Some Demo.widget ∧
  (render "a" 7 Demo.defined_widget).1 = Ok tt ∧
  pluginProcesses (render "a" 7 Demo.defined_widget).2 !! "a" = Some Demo.widget ∧
  renders_of "a" (trace (render "a" 7 Demo.defined_widget).2) =
    renders_of "a" (trace Demo.defined_widget) ++ [EvRender "a" 7].
Proof.
  assert (Hp : pluginProcesses Demo.defined_widget !! "a" = None) by by_running.
  assert (Hf : (getPluginFromLibrary (Some "a") Demo.defined_widget).1 = Ok (Some 0))
    by by_running.
  assert (Hh : head (start_registers 0 Demo.defined_widget) = Some Demo.widget)
    by reflexivity.
  destruct (render_starts_plugin_on_demand (H := Demo.host) "a" 7 0 Demo.widget
              (λ _, Demo.tick Returns) Demo.defined_widget Hp Hf Hh eq_refl)
    as (Hok & Hreg & Htr & _).
  split; [exact Hp|]. split; [exact Hf|]. split; [exact Hh|].
  split; [exact Hok|]. split; [exact Hreg|exact Htr].
Defined.

Lemma destroy_then_spawn_restarts_witness :
  (getPluginFromLibrary (Some "a") Demo.running).1 = Ok (Some 0) ∧
  (∃ rest, trace (spawn "a" (destroy "a" Demo.running).2).2 =
           trace (destroy "a" Demo.running).2
           ++ EvCompile "a" (code (heap Demo.running 0)) :: rest) ∧
  rendered <$> pluginProcessInfos (spawn "a" (destroy "a" Demo.running).2).2 !! "a" =
    Some false.
Proof.
  assert (Hf : (getPluginFromLibrary (Some "a") Demo.running).1 = Ok (Some 0))
    by by_running.
  destruct (destroy_then_spawn_restarts (H := Demo.host) "a" 0 Demo.running Hf)
    as ((rest & Htr & _) & Hr).
  split; [exact Hf|]. split; [exists rest; exact Htr|exact Hr].
Defined.

Lemma addPluginToLibrary_then_getPluginFromLibrary_witness :
  reachable Demo.defined ∧
  (∀ r, In r (pluginLibrary Demo.defined) →
        id (heap Demo.defined r) ≠ uuidv4 (uuids Demo.defined)) ∧
  ∃ returned found,
    (addPluginToLibrary "Y" "// y" Demo.defined).1 = Ok returned ∧
    heap (addPluginToLibrary "Y" "// y" Demo.defined).2 returned =
      {| id := uuidv4 (uuids Demo.defined); name := "Y"; code := "// y";
         lastEdited := Date_getTime (ticks Demo.defined); enabled := true |} ∧
    found ≠ returned.
Proof.
  assert (Hlib : pluginLibrary Demo.defined = [0]) by by_running.
  assert (Hfresh : ∀ r, In r (pluginLibrary Demo.defined) →
                        id (heap Demo.defined r) ≠ uuidv4 (uuids Demo.defined)).
  { rewrite Hlib. intros r [<-|[]]. vm_compute. discriminate. }
  split; [apply reachable_demo|]. split; [exact Hfresh|].
  destruct (addPluginToLibrary_then_getPluginFromLibrary (H := Demo.host)
              "Y" "// y" Demo.defined (reachable_demo _) Hfresh)
    as (returned & found & Hres & Hobj & _ & _ & Hne).
  exists returned, found. split; [exact Hres|]. split; [exact Hobj|exact Hne].
Defined.

Lemma addPluginToLibrary_appends_and_returns_copy_witness :
  reachable Demo.defined ∧
  contents (addPluginToLibrary "Y" "// y" Demo.defined).2
    (pluginLibrary (addPluginToLibrary "Y" "// y" Demo.defined).2) =
    contents Demo.defined (pluginLibrary Demo.defined)
    ++ [newPlugin "Y" "// y" Demo.defined] ∧
  gameManager (addPluginToLibrary "Y" "// y" Demo.defined).2 =
    contents (addPluginToLibrary "Y" "// y" Demo.defined).2
      (pluginLibrary (addPluginToLibrary "Y" "// y" Demo.defined).2).
Proof.
  split; [apply reachable_demo|].
  destruct (addPluginToLibrary_appends_and_returns_copy (H := Demo.host)
              "Y" "// y" (λ p, p) Demo.defined (reachable_demo _)) as (Hc & Hg & _).
  split; [exact Hc|exact Hg].
Defined.

Lemma getLibrary_returns_isolated_copies_witness :
  reachable Demo.defined ∧
  ∃ refs, (getLibrary Demo.defined).1 = Ok refs ∧
          contents (getLibrary Demo.defined).2 refs =
            contents Demo.defined (pluginLibrary Demo.defined).
Proof.
  split; [apply reachable_demo|].
  destruct (getLibrary_returns_isolated_copies (H := Demo.host) Demo.defined
              (reachable_demo _)) as (refs & Hres & Hc & _).
  exists refs. split; [exact Hres|exact Hc].
Defined.





Lemma rendered_record_has_live_process_witness :
  reachable (after [AddPluginToLibrary "X" "plugin.register(widget)"; Spawn "a";
                    Render "a" 7] Demo.fresh) ∧
  pluginProcessInfos
    (after [AddPluginToLibrary "X" "plugin.register(widget)"; Spawn "a";
            Render "a" 7] Demo.fresh) !! "a" =
    Some {| rendered := true; hasError := false |} ∧
  is_Some (pluginProcesses
    (after [AddPluginToLibrary "X" "plugin.register(widget)"; Spawn "a";
            Render "a" 7] Demo.fresh) !! "a").
Proof.
  set (st := after [AddPluginToLibrary "X" "plugin.register(widget)"; Spawn "a";
                    Render "a" 7] Demo.fresh).
  assert (Hr : reachable st) by apply reachable_demo.
  assert (Hi : pluginProcessInfos st !! "a" =
               Some {| rendered := true; hasError := false |}) by by_running.
  split; [exact Hr|]. split; [exact Hi|].
  exact (rendered_record_has_live_process (H := Demo.host) "a" _ st Hr Hi eq_refl).
Defined.
